(** * EduNex chatbot: the provider routes and their clients

    A shallow embedding of the TypeScript units of the repository

    - the Gemini route handler      ([listModels],
      [pickGenerateContentModel], [POST_gemini]),
    - the client dispatcher         ([aiReply]),
    - the direct Groq client        ([groqReply]),

    over a small model of the JavaScript values they manipulate.  The
    unit of the Groq route is not embedded: its line 86 reads
    [json?.choices? .[0]?.message?.content], where [? .] is not the
    optional-chaining token, so the unit does not parse and exports no
    handler.  The
    handlers are [async] functions that perform [fetch] calls and may
    throw: they are embedded in a reader/state/exception monad whose state
    is the log of outbound calls. *)

From Stdlib Require Import String Ascii List NArith ZArith Bool Lia Decimal DecimalString.
Import ListNotations.
Open Scope string_scope.
Set Warnings "-register-all".

(** ** The host: numbers *)

(** JavaScript numbers are IEEE doubles.  The routes never compute with the
    numbers found in upstream JSON; they only test them for truthiness and
    interpolate them into strings, so the type is kept abstract. *)
Class Numbers := {
  number : Type;
  (** [Boolean(n)]: false for [0], [-0] and [NaN]. *)
  Number_truthy : number -> bool;
  (** [String(n)]. *)
  Number_toString : number -> string;
  (** The double denoted by a decimal literal of the source text. *)
  Number_of_decimal : Decimal.decimal -> number
}.

(** ** JavaScript values *)

(** The values reachable from [JSON.parse], plus [undefined], which property
    access produces.  An object is the list of its own properties; a lookup
    takes the first binding of a key. *)
Inductive value `{Numbers} : Type :=
| VUndefined
| VNull
| VBool (b : bool)
| VNum (n : number)
| VStr (s : string)
| VArr (items : list value)
| VObj (props : list (string * value)).

(** The rest of the host: the JSON built-ins and the URI encoder. *)
Class Host `{Numbers} := {
  (** [JSON.parse]; [None] when it throws a [SyntaxError]. *)
  JSON_parse : string -> option value;
  (** [JSON.stringify], applied by the routes to parsed values and to
      object literals only. *)
  JSON_stringify : value -> string;
  encodeURIComponent : string -> string
}.

(** ** Errors and results *)

Record exn := Exn { exn_name : string; exn_message : string }.

Definition Error (msg : string) : exn := Exn "Error" msg.
Definition TypeError (msg : string) : exn := Exn "TypeError" msg.

Inductive result (A : Type) : Type :=
| Ok (a : A)
| Throw (e : exn).
Arguments Ok {A} a.
Arguments Throw {A} e.

(** [Error.prototype.toString]. *)
Definition exn_toString (e : exn) : string :=
  if exn_message e =? "" then exn_name e
  else if exn_name e =? "" then exn_message e
  else exn_name e ++ ": " ++ exn_message e.

Section Values.
Context `{HN : Numbers}.

(** [Boolean(v)], the test behind [!v], [v || w] and [if (v)]. *)
Definition truthy (v : value) : bool :=
  match v with
  | VUndefined | VNull => false
  | VBool b => b
  | VNum n => Number_truthy n
  | VStr s => negb (s =? "")
  | VArr _ | VObj _ => true
  end.

(** [v || w]. *)
Definition js_or (v w : value) : value := if truthy v then v else w.

Definition is_nullish (v : value) : bool :=
  match v with VUndefined | VNull => true | _ => false end.

Fixpoint own_prop (k : string) (props : list (string * value)) : option value :=
  match props with
  | [] => None
  | (k', v) :: rest => if k' =? k then Some v else own_prop k rest
  end.

(** [v?.k] for the property names the routes read ([error], [message],
    [choices], [content], [models], [name], [supportedGenerationMethods],
    [candidates], [parts], [text], [prompt]): none of them is an own or
    inherited property of a string, number, boolean or array, so only
    objects answer. *)
Definition opt_get (v : value) (k : string) : value :=
  match v with
  | VObj props => match own_prop k props with Some w => w | None => VUndefined end
  | _ => VUndefined
  end.

(** [v.k]: as [v?.k], but reading a property of [null] or [undefined]
    throws. *)
Definition get (v : value) (k : string) : result value :=
  match v with
  | VUndefined =>
      Throw (TypeError ("Cannot read properties of undefined (reading '" ++ k ++ "')"))
  | VNull =>
      Throw (TypeError ("Cannot read properties of null (reading '" ++ k ++ "')"))
  | _ => Ok (opt_get v k)
  end.

(** [v?.[0]]: the first element of an array, the first code unit of a
    string, the property ["0"] of an object. *)
Definition opt_get0 (v : value) : value :=
  match v with
  | VArr (x :: _) => x
  | VStr (String c _) => VStr (String c EmptyString)
  | VObj props => match own_prop "0" props with Some w => w | None => VUndefined end
  | _ => VUndefined
  end.

Definition typeof_string (v : value) : bool :=
  match v with VStr _ => true | _ => false end.

Definition Array_isArray (v : value) : bool :=
  match v with VArr _ => true | _ => false end.

Fixpoint join (sep : string) (l : list string) : string :=
  match l with
  | [] => ""
  | [x] => x
  | x :: rest => x ++ sep ++ join sep rest
  end.

Fixpoint sequence {A : Type} (l : list (result A)) : result (list A) :=
  match l with
  | [] => Ok []
  | Ok a :: rest =>
      match sequence rest with Ok r => Ok (a :: r) | Throw e => Throw e end
  | Throw e :: _ => Throw e
  end.

(** [String(v)], the conversion behind [`${v}`] and [Array.prototype.join].
    An array is joined with [","], [null] and [undefined] elements giving
    the empty string.  A plain object gives ["[object Object]"], unless an
    own [toString] property shadows the inherited method: parsed JSON holds
    no functions, so the conversion then throws. *)
Fixpoint to_string (v : value) : result string :=
  match v with
  | VUndefined => Ok "undefined"
  | VNull => Ok "null"
  | VBool true => Ok "true"
  | VBool false => Ok "false"
  | VNum n => Ok (Number_toString n)
  | VStr s => Ok s
  | VArr items =>
      match sequence (map (fun x => if is_nullish x then Ok "" else to_string x) items) with
      | Ok parts => Ok (join "," parts)
      | Throw e => Throw e
      end
  | VObj props =>
      match own_prop "toString" props with
      | Some _ => Throw (TypeError "Cannot convert object to primitive value")
      | None => Ok "[object Object]"
      end
  end.

(** [arr.join(sep)] on an array of values. *)
Definition Array_join (sep : string) (items : list value) : result string :=
  match sequence (map (fun x => if is_nullish x then Ok "" else to_string x) items) with
  | Ok parts => Ok (join sep parts)
  | Throw e => Throw e
  end.

End Values.

(** ** Strings *)

(** [s.includes(needle)]. *)
Fixpoint includes (needle s : string) : bool :=
  prefix needle s ||
  match s with
  | EmptyString => false
  | String _ rest => includes needle rest
  end.

Definition lower_ascii (c : ascii) : ascii :=
  let n := nat_of_ascii c in
  if Nat.leb 65 n && Nat.leb n 90 then ascii_of_nat (n + 32) else c.

(** [s.toLowerCase()] on the letters [A]-[Z]; the only use of the result is
    a search for the ASCII words ["flash"] and ["pro"]. *)
Fixpoint toLowerCase (s : string) : string :=
  match s with
  | EmptyString => EmptyString
  | String c rest => String (lower_ascii c) (toLowerCase rest)
  end.

(** [s.slice(0, n)]. *)
Definition slice0 (n : nat) (s : string) : string := substring 0 n s.

(** [`${status}`] for an HTTP status. *)
Definition dec (n : N) : string := NilZero.string_of_uint (N.to_uint n).

Definition LF : string := String (ascii_of_nat 10) EmptyString.

(** ** The outside world *)

(** An outbound call, as handed to [fetch]. *)
Record request := {
  url : string;
  method : string;
  headers : list (string * string);
  body : option string
}.

(** What [fetch] resolves to: the status line and the outcome of reading
    the body with [res.text()]. *)
Record Response := {
  status : N;
  text : result string
}.

(** [res.ok]. *)
Definition ok (res : Response) : bool :=
  N.leb 200 (status res) && N.leb (status res) 299.

(** [res.status || 502]. *)
Definition status_or_502 (res : Response) : N :=
  if N.eqb (status res) 0 then 502%N else status res.

(** One run of a handler sees the process environment and an upstream that
    answers the [n]-th outbound call of the run, either with a response or
    with a transport failure ([fetch] rejects). *)
Record world := {
  env : string -> option string;
  upstream : nat -> request -> result Response
}.

(** Computations that read the world, log their outbound calls and may
    throw. *)
Definition M (A : Type) : Type := world -> list request -> result A * list request.

Definition ret {A : Type} (a : A) : M A := fun _ log => (Ok a, log).

Definition throw {A : Type} (e : exn) : M A := fun _ log => (Throw e, log).

Definition bind {A B : Type} (m : M A) (k : A -> M B) : M B :=
  fun w log =>
    match m w log with
    | (Ok a, log') => k a w log'
    | (Throw e, log') => (Throw e, log')
    end.

Notation "x <- m ;; k" := (bind m (fun x => k))
  (at level 61, m at next level, right associativity).

(** [try { m } catch (e) { h e }]. *)
Definition try_catch {A : Type} (m : M A) (h : exn -> M A) : M A :=
  fun w log =>
    match m w log with
    | (Ok a, log') => (Ok a, log')
    | (Throw e, log') => h e w log'
    end.

Definition lift {A : Type} (r : result A) : M A := fun _ log => (r, log).

(** [await fetch(...)]. *)
Definition fetch (r : request) : M Response :=
  fun w log => (upstream w (List.length log) r, (log ++ [r])%list).

(** [process.env.NAME]. *)
Definition process_env (name : string) : M (option string) :=
  fun w log => (Ok (env w name), log).

(** [!key] for an environment entry: absent or empty. *)
Definition env_missing (key : option string) : bool :=
  match key with
  | None => true
  | Some s => s =? ""
  end.

Definition env_string (key : option string) : string :=
  match key with Some s => s | None => "" end.

(** ** The inbound side *)

(** An inbound request, reduced to its body; [req.json()] parses it. *)
Record Request := { req_body : string }.

(** What a route answers: a status and a JSON body. *)
Record NextResponse `{Numbers} := {
  resp_status : N;
  resp_body : value
}.

Definition RangeError (msg : string) : exn := Exn "RangeError" msg.

(** The statuses that go with no body. *)
Definition null_body_status (st : N) : bool :=
  N.eqb st 204 || N.eqb st 205 || N.eqb st 304.

(** [init["status"] must be in the range of 200 to 599, inclusive.] *)
Definition status_range_message : string :=
  "init[" ++ String (ascii_of_nat 34) "status" ++ String (ascii_of_nat 34) "]"
  ++ " must be in the range of 200 to 599, inclusive.".

(** What the [Response] constructor throws for a body with status [st], if
    it throws: a [RangeError] outside 200..599, a [TypeError] on a status
    that goes with no body. *)
Definition status_refusal (st : N) : option exn :=
  if N.ltb st 200 || N.ltb 599 st then Some (RangeError status_range_message)
  else if null_body_status st then
    Some (TypeError ("Response constructor: Invalid response status code " ++ dec st))
  else None.

Section Routes.
Context `{HH : Host}.

(** The response [NextResponse.json] builds when it accepts the status. *)
Definition json_response (body : value) (st : N) : NextResponse :=
  {| resp_status := st; resp_body := body |}.

(** [NextResponse.json(body, { status })]: it throws what the [Response]
    constructor throws. *)
Definition NextResponse_json (body : value) (st : N) : M NextResponse :=
  match status_refusal st with
  | Some e => throw e
  | None => ret (json_response body st)
  end.

(** [{ error: msg }]. *)
Definition error_body (msg : string) : value := VObj [("error", VStr msg)].

(** The [typeof prompt === "string"] narrowing. *)
Definition string_of (v : value) : string :=
  match v with VStr s => s | _ => "" end.

Definition lit_0_5 : number := Number_of_decimal (Decimal (Pos (D0 Nil)) (D5 Nil)).
Definition lit_0_3 : number := Number_of_decimal (Decimal (Pos (D0 Nil)) (D3 Nil)).
Definition lit_1024 : number :=
  Number_of_decimal (Decimal (Pos (D1 (D0 (D2 (D4 Nil))))) Nil).

(** [catch (e) { return NextResponse.json({ error: e?.message || fallback },
    { status: 500 }) }], the handler that closes a route. *)
Definition route_failed (fallback : string) (e : exn) : M NextResponse :=
  NextResponse_json
    (error_body (if exn_message e =? "" then fallback else exn_message e))
    500.

(** *** The Gemini route *)

(** What [listModels] resolves to: [{ models, error? }]. *)
Record Listing := {
  models : list value;
  error : option string
}.

Definition gemini_base : string := "https://generativelanguage.googleapis.com/".

Definition listModels_request (apiKey version : string) : request :=
  {| url := (gemini_base ++ version ++ "/models") ++ "?key=" ++ encodeURIComponent apiKey;
     method := "GET";
     headers := [("Content-Type", "application/json")];
     body := None |}.

(** [`${e?.message || e}`]. *)
Definition message_or_exn (e : exn) : string :=
  if exn_message e =? "" then exn_toString e else exn_message e.

Definition array_items (v : value) : list value :=
  match v with VArr items => items | _ => [] end.

Definition listModels (apiKey version : string) : M Listing :=
  try_catch
    (res <- fetch (listModels_request apiKey version) ;;
     raw <- lift (text res) ;;
     if raw =? "" then
       ret {| models := [];
              error := Some ("ListModels empty response (" ++ dec (status res) ++ ") for "
                             ++ version) |}
     else
       match JSON_parse raw with
       | None =>
         ret {| models := [];
                error := Some ("ListModels invalid JSON (" ++ dec (status res) ++ ") for "
                               ++ version ++ ": " ++ slice0 120 raw) |}
       | Some data =>
         if negb (ok res) then
           msg <- lift (to_string (js_or (opt_get (opt_get data "error") "message")
                                         (VStr (JSON_stringify data)))) ;;
           ret {| models := [];
                  error := Some ("ListModels API error (" ++ dec (status res) ++ ") for "
                                 ++ version ++ ": " ++ msg) |}
         else
           data_models <- lift (get data "models") ;;
           ret {| models := if Array_isArray data_models then array_items data_models else [];
                  error := None |}
       end)
    (fun e =>
       ret {| models := [];
              error := Some ("ListModels fetch failed for " ++ version ++ ": "
                             ++ message_or_exn e) |}).

(** [arr.includes("generateContent")]. *)
Definition includes_generateContent (items : list value) : bool :=
  existsb (fun x => match x with VStr s => s =? "generateContent" | _ => false end) items.

(** [Array.isArray(m.supportedGenerationMethods) &&
     m.supportedGenerationMethods.includes("generateContent")]. *)
Definition supportsGenerate (m : value) : result bool :=
  match get m "supportedGenerationMethods" with
  | Ok methods =>
      Ok (Array_isArray methods && includes_generateContent (array_items methods))
  | Throw e => Throw e
  end.

(** [name.toLowerCase()] on a value that need not be a string. *)
Definition call_toLowerCase (name : value) : result string :=
  match name with
  | VStr s => Ok (toLowerCase s)
  | VUndefined => Throw (TypeError "Cannot read properties of undefined (reading 'toLowerCase')")
  | VNull => Throw (TypeError "Cannot read properties of null (reading 'toLowerCase')")
  | _ => Throw (TypeError "name.toLowerCase is not a function")
  end.

Definition byPriority (name : value) : result Z :=
  match call_toLowerCase name with
  | Ok n =>
      if includes "flash" n then Ok 1%Z
      else if includes "pro" n then Ok 2%Z
      else Ok 3%Z
  | Throw e => Throw e
  end.

(** [arr.filter(p)], the callback running in index order. *)
Fixpoint Array_filter (p : value -> result bool) (l : list value) : result (list value) :=
  match l with
  | [] => Ok []
  | x :: rest =>
      match p x with
      | Ok b =>
          match Array_filter p rest with
          | Ok r => Ok (if b then x :: r else r)
          | Throw e => Throw e
          end
      | Throw e => Throw e
      end
  end.

(** The comparator [(a, b) => byPriority(a.name) - byPriority(b.name)]. *)
Definition compare_priority (a b : value) : result Z :=
  match get a "name" with
  | Ok an =>
      match byPriority an with
      | Ok pa =>
          match get b "name" with
          | Ok bn =>
              match byPriority bn with
              | Ok pb => Ok (pa - pb)%Z
              | Throw e => Throw e
              end
          | Throw e => Throw e
          end
      | Throw e => Throw e
      end
  | Throw e => Throw e
  end.

(** [Array.prototype.sort] is a stable sort; it is embedded as an insertion
    sort, which calls the comparator only on arrays of two or more elements
    and then at least once on every element.  An element stays in front of
    the elements it does not exceed.  The order in which an engine calls
    the comparator is its own (V8 hands it the later element first); it
    decides nothing but which [TypeError] comes first when several names
    are not strings, and is not followed here. *)
Fixpoint sort_insert (cmp : value -> value -> result Z) (x : value) (sorted : list value)
  : result (list value) :=
  match sorted with
  | [] => Ok [x]
  | y :: rest =>
      match cmp x y with
      | Ok c =>
          if (c <=? 0)%Z then Ok (x :: y :: rest)
          else
            match sort_insert cmp x rest with
            | Ok r => Ok (y :: r)
            | Throw e => Throw e
            end
      | Throw e => Throw e
      end
  end.

Fixpoint Array_sort (cmp : value -> value -> result Z) (l : list value) : result (list value) :=
  match l with
  | [] => Ok []
  | x :: rest =>
      match Array_sort cmp rest with
      | Ok sorted => sort_insert cmp x sorted
      | Throw e => Throw e
      end
  end.

(** [filtered[0] || null]. *)
Definition first_or_null (l : list value) : value :=
  js_or (match l with x :: _ => x | [] => VUndefined end) VNull.

Definition pickGenerateContentModel (ms : list value) : result value :=
  match Array_filter supportsGenerate ms with
  | Ok capable =>
      match Array_sort compare_priority capable with
      | Ok filtered => Ok (first_or_null filtered)
      | Throw e => Throw e
      end
  | Throw e => Throw e
  end.

Definition gemini_instruction : string :=
  "You are EduNex, an assistant chatbot for Nilgiri College of Arts and Science, Thaloor, The Nilgiris, Tamil Nadu (https://nilgiricollege.ac.in/). " ++
  "Always answer as if you represent Nilgiri College of Arts and Science located in Thaloor, The Nilgiris district, Tamil Nadu, India. " ++
  "DO NOT confuse this with any other Nilgiri College, especially the one in West Bengal. " ++
  "Focus your answers on this specific college's courses, departments, fees, admissions, campus life, etc. " ++
  "If you are not sure about exact facts like current fees or dates, say that clearly and " ++
  "suggest visiting the official website or contacting the college.".

(** [x ? `${tag}: ${x}` : ""] for an optional error string. *)
Definition tagged_error (tag : string) (e : option string) : string :=
  match e with
  | Some msg => if msg =? "" then "" else tag ++ ": " ++ msg
  | None => ""
  end.

(** [s || "none"] on a string. *)
Definition or_none (s : string) : string := if s =? "" then "none" else s.

(** [ms.map(m => m.name).join(", ")]. *)
Definition model_names (ms : list value) : result string :=
  match sequence (map (fun m => get m "name") ms) with
  | Ok names => Array_join ", " names
  | Throw e => Throw e
  end.

(** [`${ms.length}`]. *)
Definition dec_length (ms : list value) : string := dec (N.of_nat (List.length ms)).

(** The [reasons] string of the no-model answer. *)
Definition discovery_reasons (v1List v1betaList : Listing) : result string :=
  match model_names (models v1List) with
  | Ok names1 =>
      match model_names (models v1betaList) with
      | Ok names2 =>
          Ok (join " | "
                (filter (fun r => negb (r =? ""))
                   [ tagged_error "v1" (error v1List);
                     tagged_error "v1beta" (error v1betaList);
                     "v1 models (" ++ dec_length (models v1List) ++ "): " ++ or_none names1;
                     "v1beta models (" ++ dec_length (models v1betaList) ++ "): "
                       ++ or_none names2 ]))
      | Throw e => Throw e
      end
  | Throw e => Throw e
  end.

Definition no_model_message (reasons : string) : string :=
  "No Gemini models supporting generateContent were found for your project in v1 or v1beta. " ++
  "Ensure the API key is from a Google Cloud project with Generative Language API enabled and model access. " ++
  "Details: " ++
  reasons.

(** [name.startsWith("models/") ? name.replace(/^models\//, "") : name] on a
    value that need not be a string. *)
Definition bare_model (name : value) : result string :=
  match name with
  | VStr s =>
      Ok (if prefix "models/" s then substring 7 (String.length s - 7) s else s)
  | VUndefined => Throw (TypeError "Cannot read properties of undefined (reading 'startsWith')")
  | VNull => Throw (TypeError "Cannot read properties of null (reading 'startsWith')")
  | _ => Throw (TypeError "selected.name.startsWith is not a function")
  end.

Definition generate_request (apiKey version bareModel combinedPrompt : string) : request :=
  {| url := gemini_base ++ version ++ "/models/" ++ bareModel ++ ":generateContent";
     method := "POST";
     headers := [("Content-Type", "application/json"); ("x-goog-api-key", apiKey)];
     body := Some (JSON_stringify (VObj [
       ("contents", VArr [
          VObj [("role", VStr "user");
                ("parts", VArr [VObj [("text", VStr combinedPrompt)]])]]);
       ("generationConfig", VObj [
          ("temperature", VNum lit_0_5);
          ("maxOutputTokens", VNum lit_1024)])])) |}.

(** [data?.error?.message || data?.message ||
     (typeof data === "string" ? data : JSON.stringify(data))]. *)
Definition gemini_error_detail (data : value) : value :=
  js_or (opt_get (opt_get data "error") "message")
    (js_or (opt_get data "message")
       (if typeof_string data then data else VStr (JSON_stringify data))).

(** [p => (typeof p?.text === "string" ? p.text : "")]. *)
Definition part_text (p : value) : string :=
  match opt_get p "text" with VStr s => s | _ => "" end.

(** [candidate?.content?.parts?.map(...).filter(Boolean).join("\n") || ""]
    for [candidate = data?.candidates?.[0]]. *)
Definition gemini_answer (data : value) : result string :=
  let candidate := opt_get0 (opt_get data "candidates") in
  match opt_get (opt_get candidate "content") "parts" with
  | VUndefined | VNull => Ok ""
  | VArr parts => Ok (join LF (filter (fun s => negb (s =? "")) (map part_text parts)))
  | _ => Throw (TypeError "candidate?.content?.parts?.map is not a function")
  end.

(** The generation call of the route and the handling of its answer: the
    part of [POST] from [fetch(url, ...)] to the end of its [try] block. *)
Definition gemini_generate (apiKey version bareModel combinedPrompt : string)
  : M NextResponse :=
  res <- fetch (generate_request apiKey version bareModel combinedPrompt) ;;
  raw <- lift (text res) ;;
  if raw =? "" then
    NextResponse_json
      (error_body ("Gemini " ++ version ++ "/" ++ bareModel
                   ++ " returned empty response (" ++ dec (status res) ++ ")"))
      (status_or_502 res)
  else
    match JSON_parse raw with
    | None =>
      NextResponse_json
        (error_body ("Gemini " ++ version ++ "/" ++ bareModel
                     ++ " returned invalid JSON (" ++ dec (status res) ++ "): "
                     ++ slice0 200 raw))
        (status_or_502 res)
    | Some data =>
      if negb (ok res) then
        msg <- lift (to_string (gemini_error_detail data)) ;;
        NextResponse_json
          (error_body ("Gemini API Error (" ++ version ++ "/" ++ bareModel
                       ++ " - " ++ dec (status res) ++ "): " ++ msg))
          (status res)
      else
        answer <- lift (gemini_answer data) ;;
        if answer =? "" then
          NextResponse_json
            (error_body ("Gemini " ++ version ++ "/" ++ bareModel
                         ++ " response had no content"))
            500
        else
          NextResponse_json
            (VObj [("text", VStr answer); ("provider", VStr "gemini");
                   ("model", VStr bareModel); ("version", VStr version)])
            200
    end.

(** [`${instruction}\n\nUser question:\n${prompt}`]. *)
Definition combinedPrompt (prompt : string) : string :=
  gemini_instruction ++ LF ++ LF ++ "User question:" ++ LF ++ prompt.

(** Discovery, selection and generation: the part of [POST] from the first
    [listModels] to the end of its [try] block. *)
Definition gemini_reply (apiKey prompt : string) : M NextResponse :=
  v1List <- listModels apiKey "v1" ;;
  v1betaList <- (if Nat.eqb (List.length (models v1List)) 0
                 then listModels apiKey "v1beta"
                 else ret {| models := []; error := None |}) ;;
  chosenV1 <- lift (pickGenerateContentModel (models v1List)) ;;
  chosenV1beta <- (if negb (truthy chosenV1)
                   then lift (pickGenerateContentModel (models v1betaList))
                   else ret VNull) ;;
  if negb (truthy chosenV1) && negb (truthy chosenV1beta) then
    reasons <- lift (discovery_reasons v1List v1betaList) ;;
    NextResponse_json (error_body (no_model_message reasons)) 502
  else
    let version := if truthy chosenV1 then "v1" else "v1beta" in
    name <- lift (get (if truthy chosenV1 then chosenV1 else chosenV1beta) "name") ;;
    bareModel <- lift (bare_model name) ;;
    gemini_generate apiKey version bareModel (combinedPrompt prompt).

Definition POST_gemini (req : Request) : M NextResponse :=
  try_catch
    (match JSON_parse (req_body req) with
     | None => NextResponse_json (error_body "Invalid request body") 400
     | Some body =>
       let prompt := opt_get body "prompt" in
       if negb (truthy prompt) || negb (typeof_string prompt) then
         NextResponse_json (error_body "Missing prompt") 400
       else
         key <- process_env "GEMINI_API_KEY" ;;
         if env_missing key then
           NextResponse_json
             (error_body "GEMINI_API_KEY is not configured on the server") 500
         else
           gemini_reply (env_string key) (string_of prompt)
     end)
    (route_failed "Gemini route failed").

(** *** The client dispatcher *)

Inductive Provider := gemini | groq.

(** [`${provider}`]. *)
Definition provider_name (p : Provider) : string :=
  match p with gemini => "gemini" | groq => "groq" end.

Definition wrapForNilgiri (prompt : string) : string :=
  "The user is asking about Nilgiri College of Arts and Science, Thaloor, The Nilgiris, Tamil Nadu, India. " ++
  "Please answer accordingly." ++ LF ++ LF ++
  prompt.

Definition aiReply_request (prompt : string) (provider : Provider) : request :=
  {| url := match provider with gemini => "/api/ai/gemini" | groq => "/api/ai/groq" end;
     method := "POST";
     headers := [("Content-Type", "application/json")];
     body := Some (JSON_stringify (VObj [("prompt", VStr (wrapForNilgiri prompt))])) |}.

(** What [aiReply] resolves to: [{ text, provider }]. *)
Record Reply := {
  reply_text : value;
  reply_provider : Provider
}.

Definition aiReply (prompt : string) (provider : Provider) : M Reply :=
  res <- try_catch
           (fetch (aiReply_request prompt provider))
           (fun fetchError =>
              throw (Error ("Failed to connect to " ++ provider_name provider ++ ": "
                            ++ (if exn_message fetchError =? "" then "Network error"
                                else exn_message fetchError)))) ;;
  raw <- lift (text res) ;;
  if raw =? "" then
    throw (Error (provider_name provider ++ " returned empty response ("
                  ++ dec (status res) ++ ")"))
  else
    match JSON_parse raw with
    | None =>
      throw (Error (provider_name provider ++ " returned invalid JSON ("
                    ++ dec (status res) ++ "): " ++ slice0 200 raw))
    | Some json =>
      failed <- (if negb (ok res) then ret true
                 else (e <- lift (get json "error") ;; ret (truthy e))) ;;
      if (failed : bool) then
        e <- lift (get json "error") ;;
        msg <- lift (to_string
                       (js_or e (VStr (provider_name provider ++ " API error ("
                                       ++ dec (status res) ++ ")")))) ;;
        throw (Error msg)
      else
        t <- lift (get json "text") ;;
        if negb (truthy t) then
          throw (Error (provider_name provider ++ " returned empty response"))
        else
          ret {| reply_text := t; reply_provider := provider |}
    end.

(** *** The direct Groq client *)

Definition GROQ_URL : string := "https://api.groq.com/openai/v1/chat/completions".
Definition MODEL : string := "llama-3.1-8b-instant".

Definition groqReply_request (key prompt : string) : request :=
  {| url := GROQ_URL;
     method := "POST";
     headers := [("Content-Type", "application/json");
                 ("Authorization", "Bearer " ++ key)];
     body := Some (JSON_stringify (VObj [
       ("model", VStr MODEL);
       ("messages", VArr [VObj [("role", VStr "user"); ("content", VStr prompt)]]);
       ("temperature", VNum lit_0_3)])) |}.

(** [json?.choices?.[0]?.message?.content || ""]. *)
Definition groq_content (json : value) : value :=
  js_or (opt_get (opt_get (opt_get0 (opt_get json "choices")) "message") "content")
        (VStr "").

(** [json?.error?.message || json?.error || JSON.stringify(json)]. *)
Definition groqReply_error_detail (json : value) : value :=
  js_or (opt_get (opt_get json "error") "message")
    (js_or (opt_get json "error") (VStr (JSON_stringify json))).

Definition groqReply (prompt : string) : M value :=
  GROQ_KEY <- process_env "NEXT_PUBLIC_GROQ_API_KEY" ;;
  if env_missing GROQ_KEY then throw (Error "Missing NEXT_PUBLIC_GROQ_API_KEY")
  else
    res <- fetch (groqReply_request (env_string GROQ_KEY) prompt) ;;
    raw <- lift (text res) ;;
    if raw =? "" then
      throw (Error ("Groq returned empty response (" ++ dec (status res) ++ ")"))
    else
      match JSON_parse raw with
      | None =>
        throw (Error ("Groq returned invalid JSON (" ++ dec (status res) ++ "): "
                      ++ slice0 200 raw))
      | Some json =>
        if negb (ok res) then
          errorMessage <- lift (to_string (groqReply_error_detail json)) ;;
          throw (Error ("Groq error (" ++ dec (status res) ++ "): " ++ errorMessage))
        else
          let answer := groq_content json in
          ret (js_or answer (VStr "No response from Groq."))
      end.

End Routes.

(** ** The selection rule, as the specification words it *)

Section SelectionRule.
Context `{HN : Numbers}.

(** A listed model advertises the generation capability. *)
Definition capable (m : value) : bool :=
  includes_generateContent (array_items (opt_get m "supportedGenerationMethods")).

(** Tier 1 for a name containing "flash", tier 2 for one containing "pro",
    tier 3 for anything else; the name is compared in lower case. *)
Definition tier (m : value) : Z :=
  let n := toLowerCase (string_of (opt_get m "name")) in
  if includes "flash" n then 1%Z
  else if includes "pro" n then 2%Z
  else 3%Z.

(** [v] is the tier-minimal element of [l], ties broken by listing order:
    everything listed before it ranks strictly worse, nothing listed after
    it ranks better. *)
Definition first_minimal (v : value) (l : list value) : Prop :=
  exists before after,
    l = (before ++ v :: after)%list /\
    (forall x, In x before -> (tier v < tier x)%Z) /\
    (forall x, In x after -> (tier v <= tier x)%Z).

(** The entry carries a string [name], as the type [ListedModel] declares. *)
Definition named (m : value) : bool :=
  match opt_get m "name" with VStr _ => true | _ => false end.

(** [{ name, supportedGenerationMethods }]. *)
Definition ListedModel (name : string) (methods : list string) : value :=
  VObj [("name", VStr name); ("supportedGenerationMethods", VArr (map VStr methods))].

End SelectionRule.

(** ** Envelopes *)

Section Envelopes.
Context `{HN : Numbers}.

(** A NormalizedError: the body has an [error] string. *)
Definition is_NormalizedError (b : value) : bool :=
  match opt_get b "error" with VStr _ => true | _ => false end.

(** A NormalizedResult: the body has a [text] and a [provider] tag. *)
Definition is_NormalizedResult (b : value) : bool :=
  negb (is_nullish (opt_get b "text")) &&
  match opt_get b "provider" with VStr _ => true | _ => false end.

End Envelopes.

(** ** A concrete host, for running the routes on examples *)

Module Example.

(** Doubles that are written exactly by a short decimal numeral, kept as
    that numeral. *)
Fixpoint all_zero (u : Decimal.uint) : bool :=
  match u with
  | Nil => true
  | D0 r => all_zero r
  | _ => false
  end.

Definition int_digits (i : Decimal.int) : Decimal.uint :=
  match i with Pos u | Neg u => u end.

Definition decimal_truthy (d : Decimal.decimal) : bool :=
  match d with
  | Decimal i f | DecimalExp i f _ => negb (all_zero (int_digits i) && all_zero f)
  end.

Definition decimal_toString (d : Decimal.decimal) : string :=
  match d with
  | Decimal i Nil => NilZero.string_of_int i
  | Decimal i f => NilZero.string_of_int i ++ "." ++ NilEmpty.string_of_uint f
  | DecimalExp i Nil e => NilZero.string_of_int i ++ "e" ++ NilZero.string_of_int e
  | DecimalExp i f e =>
      NilZero.string_of_int i ++ "." ++ NilEmpty.string_of_uint f ++ "e"
      ++ NilZero.string_of_int e
  end.

#[global] Instance numbers : Numbers := {|
  number := Decimal.decimal;
  Number_truthy := decimal_truthy;
  Number_toString := decimal_toString;
  Number_of_decimal := fun d => d
|}.

Definition DQ : string := String (ascii_of_nat 34) EmptyString.

(** A JSON string literal; of the escapes, the quote, the backslash and the
    line feed are handled. *)
Fixpoint escape (s : string) : string :=
  match s with
  | EmptyString => EmptyString
  | String c rest =>
      if Nat.eqb (nat_of_ascii c) 34 then String (ascii_of_nat 92) (String c (escape rest))
      else if Nat.eqb (nat_of_ascii c) 92 then String c (String c (escape rest))
      else if Nat.eqb (nat_of_ascii c) 10 then String (ascii_of_nat 92) (String "n" (escape rest))
      else String c (escape rest)
  end.

Definition quote (s : string) : string := DQ ++ escape s ++ DQ.

(** [JSON.stringify] on values without [undefined]. *)
Fixpoint stringify (v : value) : string :=
  match v with
  | VUndefined | VNull => "null"
  | VBool true => "true"
  | VBool false => "false"
  | VNum n => decimal_toString n
  | VStr s => quote s
  | VArr items => "[" ++ join "," (map stringify items) ++ "]"
  | VObj props =>
      "{" ++ join ","
               ((fix fields (ps : list (string * value)) : list string :=
                   match ps with
                   | [] => []
                   | (k, x) :: rest => (quote k ++ ":" ++ stringify x) :: fields rest
                   end) props)
          ++ "}"
  end.

Definition content_reply (c : value) : value :=
  VObj [("choices", VArr [VObj [("message", VObj [("content", c)])]])].

Definition prompt_body (p : value) : value := VObj [("prompt", p)].

Definition listing (ms : list value) : value := VObj [("models", VArr ms)].

Definition candidate_reply (parts : list string) : value :=
  VObj [("candidates",
         VArr [VObj [("content",
                      VObj [("parts", VArr (map (fun t => VObj [("text", VStr t)]) parts))])]])].

(** The documents the examples exchange. *)
Definition documents : list value :=
  [ prompt_body (VStr "What courses are offered?");
    prompt_body (VStr "");
    content_reply (VStr "Nilgiri College offers...");
    content_reply (VStr "");
    VObj [("error", VStr "bad")];
    listing [];
    listing [ListedModel "models/x-flash" ["countTokens"]];
    listing [ListedModel "models/y-pro" ["generateContent"]];
    listing [ListedModel "models/foo-pro" ["generateContent"];
             ListedModel "models/bar-flash" ["generateContent"];
             ListedModel "models/baz" ["generateContent"]];
    candidate_reply ["Nilgiri College offers..."]
  ].

(** [JSON.parse] on the documents above and on text that is not JSON. *)
Definition parse (s : string) : option value :=
  find (fun v => stringify v =? s) documents.

#[global] Instance host : Host := {|
  JSON_parse := parse;
  JSON_stringify := stringify;
  encodeURIComponent := fun s => s
|}.

(** An upstream that answers every call with the same response. *)
Definition answering (st : N) (raw : string) : nat -> request -> result Response :=
  fun _ _ => Ok {| status := st; text := Ok raw |}.

(** A Gemini upstream: the two listings and the generation answer, all with
    status 200. *)
Definition gemini_upstream (v1 v1beta : list value) (answer : value)
  : nat -> request -> result Response :=
  fun _ r =>
    Ok {| status := 200;
          text := Ok (if method r =? "POST" then stringify answer
                      else if prefix (gemini_base ++ "v1beta/") (url r)
                           then stringify (listing v1beta)
                           else stringify (listing v1)) |}.

(** An upstream that refuses every connection. *)
Definition refusing : nat -> request -> result Response :=
  fun _ _ => Throw (TypeError "fetch failed").

Definition no_env : string -> option string := fun _ => None.

(** An environment holding [key] under every name. *)
Definition env_all (key : string) : string -> option string := fun _ => Some key.

Fixpoint filler (n : nat) : string :=
  match n with
  | O => EmptyString
  | S k => String "x" (filler k)
  end.

(** A body of 306 characters that is not JSON. *)
Definition not_json : string := "<html>" ++ filler 300.

Definition env_with (name key : string) : string -> option string :=
  fun n => if n =? name then Some key else None.

End Example.

(** A host that, beside the documents of [Example], decodes the envelopes
    the routes serve, the bodies the dispatcher sends and a listing with a
    [null] entry. *)
Module Served.

Definition result_envelope (answer provider : string) : value :=
  VObj [("text", VStr answer); ("provider", VStr provider)].

Definition documents : list value :=
  [ result_envelope "Nilgiri College offers..." "groq";
    error_body "Groq response had no content";
    Example.prompt_body (VStr (wrapForNilgiri ""));
    Example.listing [VNull; ListedModel "models/y-pro" ["generateContent"]]
  ].

Definition parse (s : string) : option value :=
  match Example.parse s with
  | Some v => Some v
  | None => find (fun v => Example.stringify v =? s) documents
  end.

Definition host : Host := {|
  JSON_parse := parse;
  JSON_stringify := Example.stringify;
  encodeURIComponent := fun s => s
|}.

(** The one model of the listings below. *)
Definition y_pro : value := ListedModel "models/y-pro" ["generateContent"].

(** A Gemini upstream that lists [y_pro] and answers the generation call
    with status [st] and body [raw]. *)
Definition generation_answers (st : N) (raw : string) : nat -> request -> result Response :=
  fun _ r =>
    if method r =? "POST" then Ok {| status := st; text := Ok raw |}
    else Ok {| status := 200; text := Ok (Example.stringify (Example.listing [y_pro])) |}.

(** A Gemini upstream that lists [y_pro] and refuses the generation
    call. *)
Definition generation_refused : nat -> request -> result Response :=
  fun _ r =>
    if method r =? "POST" then Throw (TypeError "fetch failed")
    else Ok {| status := 200; text := Ok (Example.stringify (Example.listing [y_pro])) |}.

(** The environment and the request of the examples on the Gemini route. *)
Definition gemini_env : string -> option string := Example.env_with "GEMINI_API_KEY" "k".

Definition asked : Request :=
  {| req_body := Example.stringify (Example.prompt_body (VStr "What courses are offered?")) |}.

Definition generation : request :=
  generate_request (HH := Example.host) "k" "v1" "y-pro"
    (combinedPrompt "What courses are offered?").

End Served.

(** ** Vocabulary of the statements *)

Section Vocabulary.
Context `{HH : Host}.

(** The inbound body parses to an object whose [prompt] is the string [p]. *)
Definition carries_prompt (req : Request) (p : string) : Prop :=
  exists body, JSON_parse (req_body req) = Some body /\ opt_get body "prompt" = VStr p.

(** The process environment holds the non-empty value [key] under [name]. *)
Definition configured (w : world) (name key : string) : Prop :=
  env w name = Some key /\ key <> "".

(** The upstream answers the call [r], issued after the calls of [log],
    with the response [res]. *)
Definition answers (w : world) (log : list request) (r : request) (res : Response) : Prop :=
  upstream w (List.length log) r = Ok res.

(** The upstream fails the call [r] at transport level with [e]. *)
Definition refuses (w : world) (log : list request) (r : request) (e : exn) : Prop :=
  upstream w (List.length log) r = Throw e.

(** The body of [res] reads as the non-empty text [raw]. *)
Definition reads_as (res : Response) (raw : string) : Prop :=
  text res = Ok raw /\ raw <> "".

(** The call [r] is the [ListModels] call for [version]. *)
Definition is_listModels_call (version : string) (r : request) : bool :=
  (method r =? "GET") && prefix (gemini_base ++ version ++ "/models?") (url r).

(** Checking candidates in order: the first truthy one, or else the last
    resort. *)
Fixpoint first_truthy (candidates : list value) (otherwise : value) : value :=
  match candidates with
  | [] => otherwise
  | v :: rest => if truthy v then v else first_truthy rest otherwise
  end.

(** The whole decoded body, as text: itself when it is a string, its JSON
    serialization otherwise. *)
Definition whole_body (json : value) : value :=
  if typeof_string json then json else VStr (JSON_stringify json).

(** The body of an answer is exactly one of the two envelopes. *)
Definition one_envelope (resp : NextResponse) : Prop :=
  let b := resp_body resp in
  (is_NormalizedError b = true /\
   opt_get b "text" = VUndefined /\ opt_get b "provider" = VUndefined) \/
  (is_NormalizedResult b = true /\ opt_get b "error" = VUndefined).

(** Whatever the world and the calls already made, the computation [m]
    only adds calls that pass [P], and what it returns, if it returns,
    satisfies [Q]. *)
Definition satisfies {A : Type} (m : M A) (Q : A -> Prop) (P : request -> bool) : Prop :=
  forall w log,
    (exists issued, snd (m w log) = (log ++ issued)%list /\ forallb P issued = true) /\
    match fst (m w log) with
    | Ok a => Q a
    | Throw _ => True
    end.

(** The result envelope of the Gemini route, sent with status 200: a
    non-empty [text], the provider tag, the bare model and the version. *)
Definition gemini_result (resp : NextResponse) : Prop :=
  resp_status resp = 200%N /\
  exists answer model version,
    resp_body resp = VObj [("text", VStr answer); ("provider", VStr "gemini");
                           ("model", VStr model); ("version", VStr version)] /\
    answer <> "" /\ (version = "v1" \/ version = "v1beta").

(** [NextResponse.json] accepts the status: 200..599, and not one that goes
    with no body. *)
Definition sendable (st : N) : bool :=
  match status_refusal st with
  | None => true
  | Some _ => false
  end.

(** On a call of the Gemini route started after the calls of [log],
    discovery selects the model of bare name [bareModel] in [version]: from
    the [v1] listing, or, that one holding no model, from the [v1beta]
    listing; the listing calls bring the log to [log']. *)
Definition selects (w : world) (log : list request) (apiKey version bareModel : string)
    (log' : list request) : Prop :=
  exists v1List log1 chosen name,
    listModels apiKey "v1" w log = (Ok v1List, log1) /\
    opt_get chosen "name" = VStr name /\
    bare_model (VStr name) = Ok bareModel /\
    ((version = "v1" /\
      pickGenerateContentModel (models v1List) = Ok chosen /\
      log' = log1) \/
     (version = "v1beta" /\
      models v1List = [] /\
      exists v1betaList,
        listModels apiKey "v1beta" w log1 = (Ok v1betaList, log') /\
        pickGenerateContentModel (models v1betaList) = Ok chosen)).

(** The claim's rule read to the letter: the name itself, in whatever case
    it is written, is searched for "flash" and "pro". *)
Definition literal_tier (m : value) : Z :=
  let n := string_of (opt_get m "name") in
  if includes "flash" n then 1%Z
  else if includes "pro" n then 2%Z
  else 3%Z.

(** [v] is first among the minimal elements of [l] for that literal
    rule. *)
Definition literal_first_minimal (v : value) (l : list value) : Prop :=
  exists before after,
    l = (before ++ v :: after)%list /\
    (forall x, In x before -> (literal_tier v < literal_tier x)%Z) /\
    (forall x, In x after -> (literal_tier v <= literal_tier x)%Z).

End Vocabulary.

(** ** Running the monad *)

Section Running.
Context {A B : Type}.

Lemma bind_ok (m : M A) (k : A -> M B) w log a log' :
  m w log = (Ok a, log') -> bind m k w log = k a w log'.
Proof. intros E. unfold bind. now rewrite E. Qed.

Lemma bind_throw (m : M A) (k : A -> M B) w log e log' :
  m w log = (Throw e, log') -> bind m k w log = (Throw e, log').
Proof. intros E. unfold bind. now rewrite E. Qed.

Lemma try_catch_ok (m : M A) (h : exn -> M A) w log a log' :
  m w log = (Ok a, log') -> try_catch m h w log = (Ok a, log').
Proof. intros E. unfold try_catch. now rewrite E. Qed.

Lemma try_catch_throw (m : M A) (h : exn -> M A) w log e log' :
  m w log = (Throw e, log') -> try_catch m h w log = h e w log'.
Proof. intros E. unfold try_catch. now rewrite E. Qed.

End Running.

Lemma eqb_nonempty (s : string) : s <> "" -> (s =? "") = false.
Proof. intros H. destruct (String.eqb_spec s ""); congruence. Qed.

Lemma env_present (key : string) : key <> "" -> env_missing (Some key) = false.
Proof. apply eqb_nonempty. Qed.

(** ** Statuses that can and cannot be sent *)

Section Statuses.
Context `{HH : Host}.

Lemma NextResponse_json_sendable (body : value) (st : N) :
  sendable st = true -> NextResponse_json body st = ret (json_response body st).
Proof.
  unfold sendable, NextResponse_json. now destruct (status_refusal st).
Qed.

Lemma NextResponse_json_refused (body : value) (st : N) (e : exn) :
  status_refusal st = Some e -> NextResponse_json body st = throw e.
Proof. unfold NextResponse_json. now intros ->. Qed.

Lemma refusal_has_a_message (st : N) (e : exn) :
  status_refusal st = Some e -> (exn_message e =? "") = false.
Proof.
  unfold status_refusal.
  destruct (N.ltb st 200 || N.ltb 599 st); [now intros [= <-] |].
  destruct (null_body_status st); [now intros [= <-] | discriminate].
Qed.

(** What the closing handler of a route does with a fault. *)
Lemma route_failed_answers (fallback : string) (e : exn) (w : world) (log : list request) :
  route_failed fallback e w log =
  (Ok (json_response
         (error_body (if exn_message e =? "" then fallback else exn_message e)) 500),
   log).
Proof. reflexivity. Qed.

(** A route whose body ends in [NextResponse.json(body, { status })]
    answers that response when the status can be sent, and otherwise HTTP
    500 with the message of the constructor's fault. *)
Lemma closed_when_sendable (m : M NextResponse) (fallback : string) (w : world)
    (log log' : list request) (body : value) (st : N) :
  m w log = NextResponse_json body st w log' ->
  sendable st = true ->
  try_catch m (route_failed fallback) w log = (Ok (json_response body st), log').
Proof.
  intros Hm Hst. apply try_catch_ok. now rewrite Hm, (NextResponse_json_sendable _ _ Hst).
Qed.

Lemma closed_when_refused (m : M NextResponse) (fallback : string) (w : world)
    (log log' : list request) (body : value) (st : N) (e : exn) :
  m w log = NextResponse_json body st w log' ->
  status_refusal st = Some e ->
  try_catch m (route_failed fallback) w log =
  (Ok (json_response (error_body (exn_message e)) 500), log').
Proof.
  intros Hm Hst.
  rewrite (try_catch_throw m _ w log e log').
  - now rewrite route_failed_answers, (refusal_has_a_message _ _ Hst).
  - now rewrite Hm, (NextResponse_json_refused _ _ _ Hst).
Qed.

End Statuses.

(** ** The Gemini route past validation *)

Section PastValidation.
Context `{HH : Host}.

Lemma truthy_prompt (p : string) :
  p <> "" -> negb (truthy (VStr p)) || negb (typeof_string (VStr p)) = false.
Proof. intros Hp. cbn. now rewrite (eqb_nonempty _ Hp). Qed.

(** With a prompt and a key, the Gemini route is discovery, selection and
    generation under the closing handler. *)
Lemma POST_gemini_called (req : Request) (w : world) (log : list request) (p key : string) :
  carries_prompt req p -> p <> "" ->
  configured w "GEMINI_API_KEY" key ->
  POST_gemini req w log =
  try_catch (gemini_reply key p) (route_failed "Gemini route failed") w log.
Proof.
  intros (body & Hparse & Hprompt) Hp (Henv & Hkey).
  unfold POST_gemini.
  rewrite Hparse. cbv zeta. rewrite Hprompt, (truthy_prompt _ Hp).
  unfold try_catch at 1 2. unfold bind at 1, process_env.
  rewrite Henv, (env_present _ Hkey). reflexivity.
Qed.

End PastValidation.

(** ** Outbound calls *)

Section Calls.

Lemma fetch_answers (w : world) (log : list request) (r : request) (res : Response) :
  answers w log r res -> fetch r w log = (Ok res, (log ++ [r])%list).
Proof. unfold answers, fetch. now intros ->. Qed.

Lemma fetch_refuses (w : world) (log : list request) (r : request) (e : exn) :
  refuses w log r e -> fetch r w log = (Throw e, (log ++ [r])%list).
Proof. unfold refuses, fetch. now intros ->. Qed.

End Calls.

(** Runs a call site whose upstream answer is known: the [fetch], the
    reading of the body and the emptiness test. *)
Ltac run_call Hans Hread :=
  let Htext := fresh "Htext" in
  let Hne := fresh "Hne" in
  destruct Hread as [Htext Hne];
  unfold bind at 1; rewrite (fetch_answers _ _ _ _ Hans);
  unfold bind at 1, lift at 1; rewrite Htext;
  rewrite (eqb_nonempty _ Hne).


(** ** Model selection *)

Section Selection.
Context `{HN : Numbers}.

Lemma named_object (m : value) :
  named m = true -> exists props, m = VObj props.
Proof. destruct m; cbn; try discriminate. eauto. Qed.

Lemma named_truthy (m : value) : named m = true -> truthy m = true.
Proof. intros H. destruct (named_object _ H) as [props ->]. reflexivity. Qed.

Lemma supportsGenerate_capable (m : value) :
  is_nullish m = false -> supportsGenerate m = Ok (capable m).
Proof.
  intros H. unfold supportsGenerate, capable.
  destruct m; try discriminate; cbn;
    try reflexivity.
  destruct (match own_prop "supportedGenerationMethods" props with
            | Some w => w | None => VUndefined end); reflexivity.
Qed.

Lemma filter_capable (ms : list value) :
  (forall m, In m ms -> is_nullish m = false) ->
  Array_filter supportsGenerate ms = Ok (filter capable ms).
Proof.
  induction ms as [|m ms IH]; intros H; cbn [Array_filter filter].
  - reflexivity.
  - rewrite (supportsGenerate_capable m) by (apply H; now left).
    rewrite IH by (intros; apply H; now right).
    reflexivity.
Qed.

Lemma compare_named (a b : value) :
  named a = true -> named b = true ->
  compare_priority a b = Ok (tier a - tier b)%Z.
Proof.
  intros Ha Hb.
  destruct (named_object _ Ha) as [pa ->], (named_object _ Hb) as [pb ->].
  unfold compare_priority, tier, named, get, byPriority in *.
  destruct (opt_get (VObj pa) "name"); try discriminate.
  destruct (opt_get (VObj pb) "name"); try discriminate.
  cbn [call_toLowerCase string_of].
  destruct (includes "flash" (toLowerCase s)), (includes "pro" (toLowerCase s)),
    (includes "flash" (toLowerCase s0)), (includes "pro" (toLowerCase s0)); reflexivity.
Qed.

Lemma sort_insert_head (x : value) (s : list value) :
  named x = true -> (forall y, In y s -> named y = true) ->
  exists r rest,
    sort_insert compare_priority x s = Ok r /\
    (forall y, In y r -> named y = true) /\
    r = (match s with
         | [] => x
         | h :: _ => if (tier x - tier h <=? 0)%Z then x else h
         end) :: rest.
Proof.
  intros Hx. revert x Hx. induction s as [|h s IH]; intros x Hx Hs; cbn [sort_insert].
  - exists [x], []. repeat split. intros y [<-|[]]. exact Hx.
  - rewrite (compare_named x h Hx) by (apply Hs; now left).
    destruct (tier x - tier h <=? 0)%Z.
    + exists (x :: h :: s), (h :: s). repeat split.
      intros y [<-|Hy]; [exact Hx | now apply Hs].
    + destruct (IH x Hx) as (r & rest & -> & Hr & _).
      { intros; apply Hs; now right. }
      exists (h :: r), r. repeat split.
      intros y [<-|Hy]; [apply Hs; now left | now apply Hr].
Qed.

Lemma sort_head (l : list value) :
  (forall y, In y l -> named y = true) ->
  exists r,
    Array_sort compare_priority l = Ok r /\
    (forall y, In y r -> named y = true) /\
    match l with
    | [] => r = []
    | _ :: _ => exists h rest, r = h :: rest /\ first_minimal h l
    end.
Proof.
  induction l as [|x xs IH]; intros Hl.
  - exists []. repeat split. intros y [].
  - destruct IH as (r' & Hsort & Hnamed & Hhead).
    { intros; apply Hl; now right. }
    cbn [Array_sort]. rewrite Hsort.
    destruct (sort_insert_head x r') as (r & rest & Hins & Hr & Heq);
      [apply Hl; now left | exact Hnamed |].
    exists r. split; [exact Hins |]. split; [exact Hr |].
    eexists _, rest. split; [exact Heq |].
    destruct xs as [|y ys].
    + subst r'. exists [], []. repeat split; intros z [].
    + destruct Hhead as (h & rest' & -> & before & after & Hxs & Hbefore & Hafter).
      destruct (Z.leb_spec (tier x - tier h) 0) as [Hle|Hgt].
      * exists [], (y :: ys). repeat split; [intros z [] |].
        intros z Hz. rewrite Hxs in Hz. apply in_app_or in Hz.
        destruct Hz as [Hz|[<-|Hz]].
        -- specialize (Hbefore z Hz). lia.
        -- lia.
        -- specialize (Hafter z Hz). lia.
      * exists (x :: before), after. repeat split.
        -- now rewrite Hxs.
        -- intros z [<-|Hz]; [lia | now apply Hbefore].
        -- exact Hafter.
Qed.

Lemma Array_filter_sound (p : value -> result bool) (ms l : list value) :
  Array_filter p ms = Ok l -> forall x, In x l -> In x ms /\ p x = Ok true.
Proof.
  revert l. induction ms as [|m ms IH]; intros l; cbn [Array_filter].
  - intros [= <-] x [].
  - destruct (p m) as [b|e] eqn:Hp; [| discriminate].
    destruct (Array_filter p ms) as [r|e]; [| discriminate].
    intros [= <-] x Hx. destruct b.
    + destruct Hx as [<-|Hx]; [split; [now left | exact Hp] |].
      destruct (IH r eq_refl x Hx). split; [now right | assumption].
    + destruct (IH r eq_refl x Hx). split; [now right | assumption].
Qed.

Lemma sort_insert_sound (cmp : value -> value -> result Z) (x : value) (s r : list value) :
  sort_insert cmp x s = Ok r -> forall y, In y r -> y = x \/ In y s.
Proof.
  revert r. induction s as [|h s IH]; intros r; cbn [sort_insert].
  - intros [= <-] y [<-|[]]. now left.
  - destruct (cmp x h) as [c|e]; [| discriminate].
    destruct (c <=? 0)%Z.
    + intros [= <-] y [<-|Hy]; [now left | now right].
    + destruct (sort_insert cmp x s) as [r'|e]; [| discriminate].
      intros [= <-] y [<-|Hy]; [right; now left |].
      destruct (IH r' eq_refl y Hy); [now left | right; now right].
Qed.

Lemma Array_sort_sound (cmp : value -> value -> result Z) (l r : list value) :
  Array_sort cmp l = Ok r -> forall y, In y r -> In y l.
Proof.
  revert r. induction l as [|x xs IH]; intros r; cbn [Array_sort].
  - intros [= <-] y [].
  - destruct (Array_sort cmp xs) as [s|e]; [| discriminate].
    intros Hins y Hy.
    destruct (sort_insert_sound _ _ _ _ Hins y Hy) as [->|Hs]; [now left |].
    right. now apply (IH s eq_refl).
Qed.

(** Selection on a listing whose entries carry a string name. *)
Lemma pick_named (ms : list value) :
  (forall m, In m ms -> named m = true) ->
  exists v,
    pickGenerateContentModel ms = Ok v /\
    match filter capable ms with
    | [] => v = VNull
    | _ :: _ => first_minimal v (filter capable ms)
    end.
Proof.
  intros Hms. unfold pickGenerateContentModel.
  rewrite filter_capable.
  2:{ intros m Hm. destruct (named_object m (Hms m Hm)) as [props ->]. reflexivity. }
  destruct (sort_head (filter capable ms)) as (r & -> & Hr & Hhead).
  { intros y Hy. apply filter_In in Hy. now apply Hms. }
  destruct (filter capable ms) as [|c cs].
  - subst r. now exists VNull.
  - destruct Hhead as (h & rest & -> & Hmin).
    exists h. split; [| exact Hmin].
    unfold first_or_null, js_or.
    now rewrite (named_truthy h) by (apply Hr; now left).
Qed.

(** The names of such a listing join without a fault. *)
Lemma model_names_named (ms : list value) :
  (forall m, In m ms -> named m = true) ->
  model_names ms = Ok (join ", " (map (fun m => string_of (opt_get m "name")) ms)).
Proof.
  intros Hms. unfold model_names, Array_join.
  assert (Hseq : sequence (map (fun m => get m "name") ms)
                 = Ok (map (fun m => opt_get m "name") ms)).
  { induction ms as [|m ms IH]; [reflexivity |].
    cbn [map sequence].
    destruct (named_object m (Hms m (or_introl eq_refl))) as [props ->].
    cbn [get]. rewrite IH by (intros; apply Hms; now right). reflexivity. }
  rewrite Hseq.
  assert (Hstr : sequence (map (fun x => if is_nullish x then Ok "" else to_string x)
                             (map (fun m => opt_get m "name") ms))
                 = Ok (map (fun m => string_of (opt_get m "name")) ms)).
  { clear Hseq. induction ms as [|m ms IH]; [reflexivity |].
    cbn [map sequence].
    pose proof (Hms m (or_introl eq_refl)) as Hm. unfold named in Hm.
    destruct (opt_get m "name"); try discriminate.
    cbn [is_nullish to_string string_of].
    rewrite IH by (intros; apply Hms; now right). reflexivity. }
  now rewrite Hstr.
Qed.

End Selection.

Section SelectionTheorem.
Context `{HN : Numbers}.

(** C2, amended: on a listing whose entries carry a string name, selection
    keeps the models that advertise [generateContent], ranks them in three
    tiers by their name in lower case ("flash" 1, "pro" 2, anything else
    3, whatever the case of the letters in the listing) and returns the
    tier-minimal one, the earliest listed among equals, or [null] when
    none is capable;
    on any listing whatever, a model that is returned was listed and
    advertises [generateContent]; and of ["models/foo-pro"],
    ["models/bar-flash"], ["models/baz"], all capable, it returns
    ["models/bar-flash"]. *)
Theorem pickGenerateContentModel_rule :
  (forall ms : list value,
     forallb named ms = true ->
     exists v,
       pickGenerateContentModel ms = Ok v /\
       match filter capable ms with
       | [] => v = VNull
       | _ :: _ => first_minimal v (filter capable ms)
       end) /\
  (forall (ms : list value) (v : value),
     pickGenerateContentModel ms = Ok v -> v <> VNull ->
     In v ms /\ supportsGenerate v = Ok true) /\
  pickGenerateContentModel
    [ ListedModel "models/foo-pro" ["generateContent"];
      ListedModel "models/bar-flash" ["generateContent"];
      ListedModel "models/baz" ["generateContent"] ]
  = Ok (ListedModel "models/bar-flash" ["generateContent"]).
Proof.
  split; [| split].
  - intros ms Hms. rewrite forallb_forall in Hms. now apply pick_named.
  - intros ms v. unfold pickGenerateContentModel.
    destruct (Array_filter supportsGenerate ms) as [kept|e] eqn:Hfilter; [| discriminate].
    destruct (Array_sort compare_priority kept) as [sorted|e] eqn:Hsort; [| discriminate].
    intros [= <-] Hv.
    assert (Hin : In (first_or_null sorted) sorted).
    { destruct sorted as [|h rest]; [now contradiction Hv |].
      unfold first_or_null, js_or in *.
      destruct (truthy h); [now left | now contradiction Hv]. }
    apply (Array_sort_sound _ _ _ Hsort) in Hin.
    exact (Array_filter_sound _ _ _ Hfilter _ Hin).
  - reflexivity.
Qed.

End SelectionTheorem.

Lemma pickGenerateContentModel_rule_witness :
  let ms := [ ListedModel "models/Gemini-PRO" ["generateContent"];
              ListedModel "models/embedding" ["embedContent"];
              ListedModel "models/flash-a" ["generateContent"; "countTokens"];
              ListedModel "models/flash-b" ["generateContent"] ] in
  forallb named ms = true /\
  exists v, pickGenerateContentModel ms = Ok v /\ first_minimal v (filter capable ms).
Proof.
  intros ms. split; [reflexivity |].
  exact (proj1 pickGenerateContentModel_rule ms eq_refl).
Defined.

(** C2 as worded fails on a name in upper case: of ["models/foo-pro"] and
    ["models/BAR-FLASH"], both capable, the second contains neither "flash"
    nor "pro" and the first is the minimal one to the letter, yet selection
    returns the second. *)
Lemma pickGenerateContentModel_counterexample :
  let foo := ListedModel "models/foo-pro" ["generateContent"] in
  let bar := ListedModel "models/BAR-FLASH" ["generateContent"] in
  pickGenerateContentModel [foo; bar] = Ok bar /\
  literal_tier foo = 2%Z /\
  literal_tier bar = 3%Z /\
  literal_first_minimal foo (filter capable [foo; bar]) /\
  ~ literal_first_minimal bar (filter capable [foo; bar]).
Proof.
  cbv zeta. split; [reflexivity |]. split; [reflexivity |]. split; [reflexivity |].
  split.
  - exists [], [ListedModel "models/BAR-FLASH" ["generateContent"]].
    split; [reflexivity |]. split.
    + intros x [].
    + intros x [<-|[]]. vm_compute. discriminate.
  - intros (before & after & Hlist & Hbefore & _).
    destruct before as [|b before].
    + cbn in Hlist. discriminate Hlist.
    + cbn in Hlist. injection Hlist as Hb Hrest.
      specialize (Hbefore b (or_introl eq_refl)). subst b.
      vm_compute in Hbefore. discriminate Hbefore.
Qed.

(** ** Reasoning on every path at once *)

Section Satisfies.
Context {A B : Type}.
Variable P : request -> bool.

Lemma sat_ret (a : A) (Q : A -> Prop) : Q a -> satisfies (ret a) Q P.
Proof.
  intros H w log. split; [| exact H].
  exists []. cbn. now rewrite app_nil_r.
Qed.

Lemma sat_throw (e : exn) (Q : A -> Prop) : satisfies (throw e) Q P.
Proof.
  intros w log. split; [| exact I].
  exists []. cbn. now rewrite app_nil_r.
Qed.

Lemma sat_lift (r : result A) (Q : A -> Prop) :
  (forall a, r = Ok a -> Q a) -> satisfies (lift r) Q P.
Proof.
  intros H w log. split.
  - exists []. cbn. now rewrite app_nil_r.
  - cbn. destruct r; [now apply H | exact I].
Qed.

Lemma sat_bind (m : M A) (k : A -> M B) (Q1 : A -> Prop) (Q : B -> Prop) :
  satisfies m Q1 P ->
  (forall a, Q1 a -> satisfies (k a) Q P) ->
  satisfies (bind m k) Q P.
Proof.
  intros Hm Hk w log. unfold bind.
  destruct (Hm w log) as [(issued & Hlog & Hall) Hq].
  destruct (m w log) as [[a|e] log1]; cbn in Hlog, Hq; subst log1.
  - destruct (Hk a Hq w (log ++ issued)%list) as [(issued' & Hlog' & Hall') Hq'].
    split; [| exact Hq'].
    exists (issued ++ issued')%list. rewrite Hlog', app_assoc. split; [reflexivity |].
    rewrite forallb_app. now rewrite Hall, Hall'.
  - split; [| exact I]. now exists issued.
Qed.

End Satisfies.

Section SatisfiesMore.
Context {A : Type}.
Variable P : request -> bool.

Lemma sat_try (m : M A) (h : exn -> M A) (Q : A -> Prop) :
  satisfies m Q P ->
  (forall e, satisfies (h e) Q P) ->
  satisfies (try_catch m h) Q P.
Proof.
  intros Hm Hh w log. unfold try_catch.
  destruct (Hm w log) as [(issued & Hlog & Hall) Hq].
  destruct (m w log) as [[a|e] log1]; cbn in Hlog, Hq; subst log1.
  - split; [| exact Hq]. now exists issued.
  - destruct (Hh e w (log ++ issued)%list) as [(issued' & Hlog' & Hall') Hq'].
    split; [| exact Hq'].
    exists (issued ++ issued')%list. rewrite Hlog', app_assoc. split; [reflexivity |].
    rewrite forallb_app. now rewrite Hall, Hall'.
Qed.

Lemma sat_fetch (r : request) : P r = true -> satisfies (fetch r) (fun _ => True) P.
Proof.
  intros HP w log. split.
  - exists [r]. cbn. now rewrite HP.
  - cbn. now destruct (upstream w (List.length log) r).
Qed.

Lemma sat_env (name : string) : satisfies (process_env name) (fun _ => True) P.
Proof.
  intros w log. split; [| exact I].
  exists []. cbn. now rewrite app_nil_r.
Qed.

Lemma sat_bind_lift {X : Type} (r : result X) (k : X -> M A) (Q : A -> Prop) :
  (forall x, r = Ok x -> satisfies (k x) Q P) -> satisfies (bind (lift r) k) Q P.
Proof.
  intros Hk. apply sat_bind with (Q1 := fun x => r = Ok x); [| exact Hk].
  apply sat_lift. auto.
Qed.

Lemma sat_bind_any {X : Type} (m : M X) (k : X -> M A) (Q : A -> Prop) :
  satisfies m (fun _ => True) P ->
  (forall x, satisfies (k x) Q P) -> satisfies (bind m k) Q P.
Proof. intros Hm Hk. apply sat_bind with (Q1 := fun _ => True); auto. Qed.

End SatisfiesMore.

Lemma sat_NextResponse_json `{HN : Numbers} (P : request -> bool) (body : value) (st : N)
    (Q : NextResponse -> Prop) :
  Q (json_response body st) -> satisfies (NextResponse_json body st) Q P.
Proof.
  intros HQ. unfold NextResponse_json.
  destruct (status_refusal st); [apply sat_throw | now apply sat_ret].
Qed.

(** A handler closed by a [catch] that answers always answers. *)
Lemma closed_route_answers `{HH : Host} (m : M NextResponse) (fallback : string)
    (Q : NextResponse -> Prop) (P : request -> bool) :
  satisfies m Q P ->
  (forall e, satisfies (route_failed fallback e) Q P) ->
  forall w log, exists resp issued,
    try_catch m (route_failed fallback) w log = (Ok resp, (log ++ issued)%list) /\
    forallb P issued = true /\ Q resp.
Proof.
  intros Hm Hh w log.
  destruct (sat_try P _ _ _ Hm Hh w log) as [(issued & Hlog & Hall) Hq].
  assert (Hok : exists resp, fst (try_catch m (route_failed fallback) w log) = Ok resp).
  { unfold try_catch. destruct (m w log) as [[a|e] log1]; cbn [fst]; [eauto |].
    rewrite route_failed_answers. cbn [fst]. eauto. }
  destruct Hok as [resp Hresp]. rewrite Hresp in Hq.
  exists resp, issued. split; [| now split].
  destruct (try_catch m (route_failed fallback) w log) as [r l]. cbn in *. congruence.
Qed.

(** One step of a proof of [satisfies] along the shape of the code. *)
Ltac sat_step :=
  lazymatch goal with
  | |- satisfies (NextResponse_json _ _) _ _ => apply sat_NextResponse_json
  | |- satisfies (ret _) _ _ => apply sat_ret
  | |- satisfies (throw _) _ _ => apply sat_throw
  | |- satisfies (bind (lift _) _) _ _ => apply sat_bind_lift; intros
  | |- satisfies (bind (fetch _) _) _ _ =>
      apply sat_bind_any; [apply sat_fetch | intros]
  | |- satisfies (bind (process_env _) _) _ _ =>
      apply sat_bind_any; [apply sat_env | intros]
  | |- satisfies (if ?c then _ else _) _ _ => destruct c eqn:?
  | |- satisfies (match ?x with _ => _ end) _ _ => destruct x eqn:?
  | |- satisfies (let _ := _ in _) _ _ => cbv zeta
  end.

(** ** Every answer of the Gemini route is an envelope *)

Section Envelope.
Context `{HH : Host}.
Variable P : request -> bool.

Lemma error_body_envelope (msg : string) (st : N) :
  one_envelope (json_response (error_body msg) st).
Proof. left. repeat split. Qed.

Lemma route_failed_sat (fallback : string) (e : exn) :
  satisfies (route_failed fallback e) one_envelope P.
Proof. apply sat_NextResponse_json, error_body_envelope. Qed.

Lemma listModels_sat (apiKey version : string) :
  P (listModels_request apiKey version) = true ->
  satisfies (listModels apiKey version) (fun _ => True) P.
Proof.
  intros HP. unfold listModels.
  apply sat_try; [| intros e; now apply sat_ret].
  repeat sat_step; try exact HP; exact I.
Qed.

Lemma gemini_generate_sat (apiKey version bareModel prompt : string) :
  P (generate_request apiKey version bareModel prompt) = true ->
  satisfies (gemini_generate apiKey version bareModel prompt) one_envelope P.
Proof.
  intros HP. unfold gemini_generate.
  repeat sat_step; try exact HP; try apply error_body_envelope.
  right. now split.
Qed.

Lemma gemini_reply_sat (apiKey prompt : string) :
  P (listModels_request apiKey "v1") = true ->
  P (listModels_request apiKey "v1beta") = true ->
  (forall version bareModel,
     P (generate_request apiKey version bareModel (combinedPrompt prompt)) = true) ->
  satisfies (gemini_reply apiKey prompt) one_envelope P.
Proof.
  intros H1 H2 H3. unfold gemini_reply.
  apply sat_bind_any; [now apply listModels_sat | intros v1List].
  apply sat_bind_any.
  { destruct (Nat.eqb _ _); [now apply listModels_sat | now apply sat_ret]. }
  intros v1betaList.
  sat_step.
  apply sat_bind_any.
  { destruct (negb (truthy x)); [now apply sat_lift | now apply sat_ret]. }
  intros chosenV1beta.
  repeat sat_step; try apply error_body_envelope.
  apply gemini_generate_sat, H3.
Qed.

Lemma POST_gemini_sat (req : Request) :
  (forall apiKey version, P (listModels_request apiKey version) = true) ->
  (forall apiKey version bareModel prompt,
     P (generate_request apiKey version bareModel prompt) = true) ->
  satisfies
    (match JSON_parse (req_body req) with
     | None => NextResponse_json (error_body "Invalid request body") 400
     | Some body =>
       let prompt := opt_get body "prompt" in
       if negb (truthy prompt) || negb (typeof_string prompt) then
         NextResponse_json (error_body "Missing prompt") 400
       else
         key <- process_env "GEMINI_API_KEY" ;;
         if env_missing key then
           NextResponse_json
             (error_body "GEMINI_API_KEY is not configured on the server") 500
         else
           gemini_reply (env_string key) (string_of prompt)
     end) one_envelope P.
Proof.
  intros H1 H2.
  repeat sat_step; try apply error_body_envelope.
  apply gemini_reply_sat; auto.
Qed.

End Envelope.

Section EnvelopeTheorem.
Context `{HH : Host}.

(** Whatever the inbound request, the environment and the upstream, the
    Gemini route handler returns (it never throws, not even when
    [NextResponse.json] refuses a status) one answer, whose body is exactly
    one of the two envelopes: a NormalizedError, with an [error] string and
    neither [text] nor [provider], or a NormalizedResult, with a [text] and
    a [provider] and no [error]. *)
Theorem gemini_exactly_one_envelope (req : Request) (w : world) (log : list request) :
  exists resp log',
    POST_gemini req w log = (Ok resp, log') /\
    is_NormalizedError (resp_body resp) <> is_NormalizedResult (resp_body resp) /\
    one_envelope resp.
Proof.
  assert (Hxor : forall resp, one_envelope resp ->
            is_NormalizedError (resp_body resp) <> is_NormalizedResult (resp_body resp)).
  { intros resp [(He & Ht & _)|(Hr & He)].
    - rewrite He. unfold is_NormalizedResult. rewrite Ht. discriminate.
    - rewrite Hr. unfold is_NormalizedError. rewrite He. discriminate. }
  destruct (closed_route_answers _ "Gemini route failed" one_envelope (fun _ => true)
              (POST_gemini_sat _ req (fun _ _ => eq_refl) (fun _ _ _ _ => eq_refl))
              (route_failed_sat _ _) w log)
    as (resp & issued & Hrun & _ & Henv).
  exists resp, (log ++ issued)%list. split; [exact Hrun | split; [auto | exact Henv]].
Qed.

End EnvelopeTheorem.

(** ** Model discovery *)

Section Discovery.
Context `{HH : Host}.

(** [listModels] never throws and issues exactly one call. *)
Lemma listModels_total (apiKey version : string) (w : world) (log : list request) :
  exists l,
    listModels apiKey version w log =
    (Ok l, (log ++ [listModels_request apiKey version])%list).
Proof.
  unfold listModels, try_catch, bind, fetch, lift, ret.
  destruct (upstream w (List.length log) (listModels_request apiKey version)) as [res|e];
    [| eauto].
  destruct (text res) as [raw|e]; [| eauto].
  destruct (raw =? ""); [eauto |].
  destruct (JSON_parse raw) as [data|]; [| eauto].
  destruct (negb (ok res)).
  - destruct (to_string _); eauto.
  - destruct (get data "models"); eauto.
Qed.

Lemma listModels_refused (apiKey version : string) (w : world) (log : list request)
    (e : exn) :
  refuses w log (listModels_request apiKey version) e ->
  listModels apiKey version w log =
  (Ok {| models := [];
         error := Some ("ListModels fetch failed for " ++ version ++ ": "
                        ++ message_or_exn e) |},
   (log ++ [listModels_request apiKey version])%list).
Proof.
  intros Href. unfold listModels.
  erewrite try_catch_throw; [reflexivity |].
  apply bind_throw. now apply fetch_refuses.
Qed.

Lemma listModels_invalid_json (apiKey version : string) (w : world) (log : list request)
    (res : Response) (raw : string) :
  answers w log (listModels_request apiKey version) res ->
  reads_as res raw ->
  JSON_parse raw = None ->
  listModels apiKey version w log =
  (Ok {| models := [];
         error := Some ("ListModels invalid JSON (" ++ dec (status res) ++ ") for "
                        ++ version ++ ": " ++ slice0 120 raw) |},
   (log ++ [listModels_request apiKey version])%list).
Proof.
  intros Hans Hread Hparse. unfold listModels.
  apply try_catch_ok.
  run_call Hans Hread. now rewrite Hparse.
Qed.

Lemma listModels_api_error (apiKey version : string) (w : world) (log : list request)
    (res : Response) (raw : string) (data : value) (msg : string) :
  answers w log (listModels_request apiKey version) res ->
  reads_as res raw ->
  JSON_parse raw = Some data ->
  ok res = false ->
  to_string (js_or (opt_get (opt_get data "error") "message") (VStr (JSON_stringify data)))
    = Ok msg ->
  listModels apiKey version w log =
  (Ok {| models := [];
         error := Some ("ListModels API error (" ++ dec (status res) ++ ") for "
                        ++ version ++ ": " ++ msg) |},
   (log ++ [listModels_request apiKey version])%list).
Proof.
  intros Hans Hread Hparse Hok Hmsg. unfold listModels.
  apply try_catch_ok.
  run_call Hans Hread. rewrite Hparse, Hok. cbn [negb].
  unfold bind, lift. now rewrite Hmsg.
Qed.

Lemma listModels_listed (apiKey version : string) (w : world) (log : list request)
    (res : Response) (raw : string) (data : value) (ms : list value) :
  answers w log (listModels_request apiKey version) res ->
  reads_as res raw ->
  JSON_parse raw = Some data ->
  ok res = true ->
  opt_get data "models" = VArr ms ->
  listModels apiKey version w log =
  (Ok {| models := ms; error := None |},
   (log ++ [listModels_request apiKey version])%list).
Proof.
  intros Hans Hread Hparse Hok Hms. unfold listModels.
  apply try_catch_ok.
  run_call Hans Hread. rewrite Hparse, Hok. cbn [negb].
  unfold bind, lift.
  assert (Hget : get data "models" = Ok (VArr ms)).
  { destruct data; cbn in Hms; try discriminate. cbn. now rewrite Hms. }
  now rewrite Hget.
Qed.

Lemma try_catch_bind_ok {A B : Type} (m : M A) (k : A -> M B) (h : exn -> M B)
    (w : world) (log log' : list request) (a : A) :
  m w log = (Ok a, log') ->
  try_catch (bind m k) h w log = try_catch (k a) h w log'.
Proof. intros E. unfold try_catch. now rewrite (bind_ok _ _ _ _ _ _ E). Qed.

End Discovery.

Section DiscoveryTheorem.
Context `{HH : Host}.

(** C1: on a Gemini request whose [v1] listing returns a non-empty model
    set, the route answers without ever issuing the [v1beta] listing call
    (a call that the test used here does recognise); and when none of the
    [v1] models (entries with a string name) advertises [generateContent],
    the answer is the aggregated no-model error with HTTP 502, the [v1]
    listing being the only call issued. *)
Theorem v1beta_listing_skipped (req : Request) (w : world) (log log1 : list request)
    (p key : string) (v1List : Listing) :
  carries_prompt req p -> p <> "" ->
  configured w "GEMINI_API_KEY" key ->
  listModels key "v1" w log = (Ok v1List, log1) ->
  models v1List <> [] ->
  is_listModels_call "v1beta" (listModels_request key "v1beta") = true /\
  (exists resp issued,
     POST_gemini req w log = (Ok resp, (log ++ issued)%list) /\
     forallb (fun r => negb (is_listModels_call "v1beta" r)) issued = true) /\
  ((forall m, In m (models v1List) -> named m = true /\ capable m = false) ->
   exists reasons,
     discovery_reasons v1List {| models := []; error := None |} = Ok reasons /\
     POST_gemini req w log =
     (Ok (json_response (error_body (no_model_message reasons)) 502),
      (log ++ [listModels_request key "v1"])%list)).
Proof.
  intros Hreq Hp Hkey Hlist Hne.
  split; [reflexivity |].
  rewrite (POST_gemini_called _ _ _ _ _ Hreq Hp Hkey).
  assert (Hlog1 : log1 = (log ++ [listModels_request key "v1"])%list).
  { destruct (listModels_total key "v1" w log) as [l Hl]. congruence. }
  unfold gemini_reply. rewrite (try_catch_bind_ok _ _ _ _ _ _ _ Hlist).
  assert (Hlen : Nat.eqb (List.length (models v1List)) 0 = false).
  { destruct (models v1List); [congruence | reflexivity]. }
  rewrite Hlen. subst log1. split.
  - match goal with
    | |- context [try_catch ?X _ w _] =>
        assert (Hsat : satisfies X (fun _ => True)
                         (fun r => negb (is_listModels_call "v1beta" r)))
    end.
    { apply sat_bind_any; [now apply sat_ret | intros v1betaList].
      sat_step.
      apply sat_bind_any.
      { destruct (negb (truthy x)); [now apply sat_lift | now apply sat_ret]. }
      intros chosenV1beta.
      repeat sat_step; try exact I.
      unfold gemini_generate.
      repeat sat_step; try exact I. reflexivity. }
    destruct (closed_route_answers _ "Gemini route failed" _ _ Hsat
                (fun e => sat_NextResponse_json _ _ _ _ I) w
                (log ++ [listModels_request key "v1"])%list)
      as (resp & issued & Hrun & Hall & _).
    exists resp, (listModels_request key "v1" :: issued).
    split.
    + rewrite Hrun. now rewrite <- app_assoc.
    + cbn [forallb]. now rewrite Hall.
  - intros Hms.
    destruct (pick_named (models v1List)) as (v & Hpick & Hv).
    { intros m Hm. now apply Hms. }
    assert (Hnone : filter capable (models v1List) = []).
    { clear -Hms. induction (models v1List) as [|m ms IH]; [reflexivity |].
      cbn [filter]. destruct (Hms m (or_introl eq_refl)) as [_ ->].
      apply IH. intros; apply Hms; now right. }
    rewrite Hnone in Hv. subst v.
    assert (Hreasons : exists reasons,
               discovery_reasons v1List {| models := []; error := None |} = Ok reasons).
    { unfold discovery_reasons.
      rewrite model_names_named by (intros m Hm; now apply Hms).
      cbn [models model_names map sequence Array_join]. eauto. }
    destruct Hreasons as [reasons Hreasons].
    exists reasons. split; [exact Hreasons |].
    apply try_catch_ok.
    unfold bind, ret, lift. rewrite Hpick. cbn [truthy negb models].
    unfold pickGenerateContentModel. cbn [Array_filter Array_sort first_or_null js_or truthy].
    cbn [negb andb]. now rewrite Hreasons.
Qed.

End DiscoveryTheorem.

Lemma v1beta_listing_skipped_witness :
  let req := {| req_body :=
                  Example.stringify (Example.prompt_body (VStr "What courses are offered?")) |} in
  let listed := [ListedModel "models/x-flash" ["countTokens"]] in
  let w := {| env := Example.env_with "GEMINI_API_KEY" "k";
              upstream :=
                Example.gemini_upstream listed
                  [ListedModel "models/y-pro" ["generateContent"]]
                  (Example.candidate_reply ["Nilgiri College offers..."]) |} in
  POST_gemini req w [] =
  (Ok (json_response
         (error_body (no_model_message "v1 models (1): models/x-flash | v1beta models (0): none"))
         502),
   [listModels_request "k" "v1"]).
Proof.
  intros req listed w.
  destruct (v1beta_listing_skipped req w [] [listModels_request "k" "v1"]
              "What courses are offered?" "k" {| models := listed; error := None |})
    as (_ & _ & Hnone).
  - exists (Example.prompt_body (VStr "What courses are offered?")). split; reflexivity.
  - discriminate.
  - split; [reflexivity | discriminate].
  - reflexivity.
  - discriminate.
  - destruct Hnone as (reasons & Hreasons & Hrun).
    + intros m [<-|[]]. split; reflexivity.
    + rewrite Hrun. vm_compute in Hreasons. injection Hreasons as <-. reflexivity.
Defined.

(** The route end to end: the listing of the specification's example, the
    bare model name in the generation call, the answer. *)
Example gemini_round_trip :
  let req := {| req_body :=
                  Example.stringify (Example.prompt_body (VStr "What courses are offered?")) |} in
  let w := {| env := Example.env_with "GEMINI_API_KEY" "k";
              upstream :=
                Example.gemini_upstream
                  [ ListedModel "models/foo-pro" ["generateContent"];
                    ListedModel "models/bar-flash" ["generateContent"];
                    ListedModel "models/baz" ["generateContent"] ]
                  []
                  (Example.candidate_reply ["Nilgiri College offers..."]) |} in
  POST_gemini req w [] =
  (Ok (json_response
         (VObj [("text", VStr "Nilgiri College offers..."); ("provider", VStr "gemini");
                ("model", VStr "bar-flash"); ("version", VStr "v1")])
         200),
   [ listModels_request "k" "v1";
     generate_request "k" "v1" "bar-flash" (combinedPrompt "What courses are offered?") ]).
Proof. vm_compute. reflexivity. Qed.

(** An empty [v1] listing sends the route to [v1beta]. *)
Example gemini_falls_back :
  let req := {| req_body :=
                  Example.stringify (Example.prompt_body (VStr "What courses are offered?")) |} in
  let w := {| env := Example.env_with "GEMINI_API_KEY" "k";
              upstream :=
                Example.gemini_upstream
                  []
                  [ListedModel "models/y-pro" ["generateContent"]]
                  (Example.candidate_reply ["Nilgiri College offers..."]) |} in
  POST_gemini req w [] =
  (Ok (json_response
         (VObj [("text", VStr "Nilgiri College offers..."); ("provider", VStr "gemini");
                ("model", VStr "y-pro"); ("version", VStr "v1beta")])
         200),
   [ listModels_request "k" "v1";
     listModels_request "k" "v1beta";
     generate_request "k" "v1beta" "y-pro" (combinedPrompt "What courses are offered?") ]).
Proof. vm_compute. reflexivity. Qed.

(** ** The generation call of the Gemini route *)

Section Generation.
Context `{HH : Host}.

(** Once discovery has selected a model, the route is the generation call
    under the closing handler. *)
Lemma POST_gemini_selected (req : Request) (w : world) (log log' : list request)
    (p key version bareModel : string) :
  carries_prompt req p -> p <> "" ->
  configured w "GEMINI_API_KEY" key ->
  selects w log key version bareModel log' ->
  POST_gemini req w log =
  try_catch (gemini_generate key version bareModel (combinedPrompt p))
            (route_failed "Gemini route failed") w log'.
Proof.
  intros Hreq Hp Hkey (v1List & log1 & chosen & name & Hlist & Hname & Hbare & Hsel).
  assert (Htruthy : truthy chosen = true /\ get chosen "name" = Ok (VStr name)).
  { destruct chosen; cbn in Hname; try discriminate.
    split; [reflexivity |]. cbn. now rewrite Hname. }
  destruct Htruthy as [Htruthy Hget].
  rewrite (POST_gemini_called _ _ _ _ _ Hreq Hp Hkey).
  unfold gemini_reply. rewrite (try_catch_bind_ok _ _ _ _ _ _ _ Hlist).
  destruct Hsel as [(-> & Hpick & ->)|(-> & Hempty & v1betaList & Hlist2 & Hpick)].
  - assert (Hlen : Nat.eqb (List.length (models v1List)) 0 = false).
    { destruct (models v1List); [| reflexivity].
      cbn in Hpick. injection Hpick as <-. discriminate. }
    rewrite Hlen.
    erewrite try_catch_bind_ok by reflexivity. cbv beta iota zeta.
    rewrite Hpick.
    erewrite try_catch_bind_ok by reflexivity. cbv beta iota zeta.
    rewrite !Htruthy. cbn [negb andb]. cbv beta iota zeta.
    erewrite try_catch_bind_ok by reflexivity. cbv beta iota zeta.
    rewrite Hget.
    erewrite try_catch_bind_ok by reflexivity. cbv beta iota zeta.
    rewrite Hbare.
    erewrite try_catch_bind_ok by reflexivity.
    reflexivity.
  - rewrite Hempty. cbn [List.length Nat.eqb].
    rewrite (try_catch_bind_ok _ _ _ _ _ _ _ Hlist2). cbv beta iota zeta.
    erewrite try_catch_bind_ok by reflexivity. cbv beta iota zeta.
    cbn [truthy negb andb]. cbv beta iota zeta. rewrite Hpick.
    erewrite try_catch_bind_ok by reflexivity. cbv beta iota zeta.
    change (@first_or_null H []) with (@VNull H).
    rewrite !Htruthy. cbn [truthy negb andb]. cbv beta iota zeta.
    rewrite Hget.
    erewrite try_catch_bind_ok by reflexivity. cbv beta iota zeta.
    rewrite Hbare.
    erewrite try_catch_bind_ok by reflexivity.
    reflexivity.
Qed.

Lemma gemini_generate_refused (apiKey version bareModel prompt : string) (w : world)
    (log : list request) (e : exn) :
  refuses w log (generate_request apiKey version bareModel prompt) e ->
  gemini_generate apiKey version bareModel prompt w log =
  (Throw e, (log ++ [generate_request apiKey version bareModel prompt])%list).
Proof.
  intros Href. unfold gemini_generate. apply bind_throw. now apply fetch_refuses.
Qed.

Lemma gemini_generate_empty (apiKey version bareModel prompt : string) (w : world)
    (log : list request) (res : Response) :
  answers w log (generate_request apiKey version bareModel prompt) res ->
  text res = Ok "" ->
  gemini_generate apiKey version bareModel prompt w log =
  NextResponse_json
    (error_body ("Gemini " ++ version ++ "/" ++ bareModel
                 ++ " returned empty response (" ++ dec (status res) ++ ")"))
    (status_or_502 res) w
    (log ++ [generate_request apiKey version bareModel prompt])%list.
Proof.
  intros Hans Htext. unfold gemini_generate.
  unfold bind at 1. rewrite (fetch_answers _ _ _ _ Hans).
  unfold bind, lift. now rewrite Htext.
Qed.

Lemma gemini_generate_invalid_json (apiKey version bareModel prompt : string) (w : world)
    (log : list request) (res : Response) (raw : string) :
  answers w log (generate_request apiKey version bareModel prompt) res ->
  reads_as res raw ->
  JSON_parse raw = None ->
  gemini_generate apiKey version bareModel prompt w log =
  NextResponse_json
    (error_body ("Gemini " ++ version ++ "/" ++ bareModel
                 ++ " returned invalid JSON (" ++ dec (status res) ++ "): "
                 ++ slice0 200 raw))
    (status_or_502 res) w
    (log ++ [generate_request apiKey version bareModel prompt])%list.
Proof.
  intros Hans Hread Hparse. unfold gemini_generate.
  run_call Hans Hread. now rewrite Hparse.
Qed.

Lemma gemini_generate_upstream_error (apiKey version bareModel prompt : string)
    (w : world) (log : list request) (res : Response) (raw : string) (data : value)
    (msg : string) :
  answers w log (generate_request apiKey version bareModel prompt) res ->
  reads_as res raw ->
  JSON_parse raw = Some data ->
  ok res = false ->
  to_string (gemini_error_detail data) = Ok msg ->
  gemini_generate apiKey version bareModel prompt w log =
  NextResponse_json
    (error_body ("Gemini API Error (" ++ version ++ "/" ++ bareModel ++ " - "
                 ++ dec (status res) ++ "): " ++ msg))
    (status res) w
    (log ++ [generate_request apiKey version bareModel prompt])%list.
Proof.
  intros Hans Hread Hparse Hok Hmsg. unfold gemini_generate.
  run_call Hans Hread. rewrite Hparse, Hok. cbn [negb].
  unfold bind, lift. now rewrite Hmsg.
Qed.

End Generation.

(** In a world whose upstream lists [Served.y_pro] under [v1], discovery
    selects it. *)
Lemma selects_y_pro (generate : nat -> request -> result Response) :
  (forall n r, method r = "GET" ->
     generate n r =
     Ok {| status := 200;
           text := Ok (Example.stringify (Example.listing [Served.y_pro])) |}) ->
  selects {| env := Served.gemini_env; upstream := generate |} [] "k" "v1" "y-pro"
    [listModels_request "k" "v1"].
Proof.
  intros Hlist.
  exists {| models := [Served.y_pro]; error := None |}, [listModels_request "k" "v1"],
    Served.y_pro, "models/y-pro".
  split.
  - apply (listModels_listed "k" "v1" _ []
             {| status := 200;
                text := Ok (Example.stringify (Example.listing [Served.y_pro])) |}
             (Example.stringify (Example.listing [Served.y_pro]))
             (Example.listing [Served.y_pro])).
    + apply Hlist. reflexivity.
    + split; [reflexivity | discriminate].
    + reflexivity.
    + reflexivity.
    + reflexivity.
  - split; [reflexivity |]. split; [reflexivity |]. left. repeat split.
Qed.

Lemma asked_carries_prompt : carries_prompt Served.asked "What courses are offered?".
Proof. exists (Example.prompt_body (VStr "What courses are offered?")). split; reflexivity. Qed.

Lemma gemini_env_configured (upstream : nat -> request -> result Response) :
  configured {| env := Served.gemini_env; upstream := upstream |} "GEMINI_API_KEY" "k".
Proof. split; [reflexivity | discriminate]. Qed.

(** ** The call sites on a known answer *)

Section CallSites.
Context `{HH : Host}.

(** The client dispatcher, once its call is answered with a non-empty
    body. *)
Lemma aiReply_answered (prompt : string) (provider : Provider) (w : world)
    (log : list request) (res : Response) (raw : string) :
  answers w log (aiReply_request prompt provider) res ->
  reads_as res raw ->
  aiReply prompt provider w log =
  (match JSON_parse raw with
   | None =>
     throw (Error (provider_name provider ++ " returned invalid JSON ("
                   ++ dec (status res) ++ "): " ++ slice0 200 raw))
   | Some json =>
     failed <- (if negb (ok res) then ret true
                else (e <- lift (get json "error") ;; ret (truthy e))) ;;
     if (failed : bool) then
       e <- lift (get json "error") ;;
       msg <- lift (to_string
                      (js_or e (VStr (provider_name provider ++ " API error ("
                                      ++ dec (status res) ++ ")")))) ;;
       throw (Error msg)
     else
       t <- lift (get json "text") ;;
       if negb (truthy t) then
         throw (Error (provider_name provider ++ " returned empty response"))
       else
         ret {| reply_text := t; reply_provider := provider |}
   end) w (log ++ [aiReply_request prompt provider])%list.
Proof.
  intros Hans [Htext Hne]. unfold aiReply.
  unfold bind at 1.
  rewrite (try_catch_ok _ _ _ _ _ _ (fetch_answers _ _ _ _ Hans)).
  unfold bind at 1, lift at 1. rewrite Htext, (eqb_nonempty _ Hne). reflexivity.
Qed.

(** The direct Groq client, once configured and answered with a non-empty
    body. *)
Lemma groqReply_answered (prompt key : string) (w : world) (log : list request)
    (res : Response) (raw : string) :
  configured w "NEXT_PUBLIC_GROQ_API_KEY" key ->
  answers w log (groqReply_request key prompt) res ->
  reads_as res raw ->
  groqReply prompt w log =
  (match JSON_parse raw with
   | None =>
     throw (Error ("Groq returned invalid JSON (" ++ dec (status res) ++ "): "
                   ++ slice0 200 raw))
   | Some json =>
     if negb (ok res) then
       errorMessage <- lift (to_string (groqReply_error_detail json)) ;;
       throw (Error ("Groq error (" ++ dec (status res) ++ "): " ++ errorMessage))
     else
       let answer := groq_content json in
       ret (js_or answer (VStr "No response from Groq."))
   end) w (log ++ [groqReply_request key prompt])%list.
Proof.
  intros (Henv & Hkey) Hans Hread. unfold groqReply.
  unfold bind at 1, process_env. rewrite Henv, (env_present _ Hkey).
  cbn [env_string].
  run_call Hans Hread. reflexivity.
Qed.

Lemma slice0_prefix (n : nat) (raw : string) :
  n <= String.length raw ->
  String.length (slice0 n raw) = n /\ exists rest, raw = slice0 n raw ++ rest.
Proof.
  unfold slice0. revert raw. induction n as [|n IH]; intros raw Hn.
  - destruct raw; cbn; split; eauto.
  - destruct raw as [|c raw]; cbn in Hn; [lia |].
    destruct (IH raw) as [Hlen [rest Hrest]]; [lia |].
    cbn [substring String.length]. split; [now rewrite Hlen |].
    exists rest. cbn. now rewrite <- Hrest.
Qed.

End CallSites.

(** ** Bodies that are not JSON *)

Section InvalidJSON.
Context `{HH : Host}.

(** C3, amended: when the raw body of an upstream answer fails JSON
    decoding, the error message ends with [raw.slice(0, 200)] and nothing
    else of the upstream text at the generation call of the Gemini route
    (answered with the upstream status, 502 standing in for 0, when
    [NextResponse.json] accepts that status; answered HTTP 500 with the
    constructor's message and none of the upstream text when it does not),
    in the client dispatcher and in the direct Groq client; the
    model-listing call of the Gemini route keeps [raw.slice(0, 120)].  On a
    body longer than the bound the slice is exactly the first 200 (120)
    characters. *)
Theorem invalid_json_is_truncated (w : world) (log : list request) (res : Response)
    (raw : string) :
  reads_as res raw ->
  JSON_parse raw = None ->
  (forall req p key version bareModel log0,
     carries_prompt req p -> p <> "" -> configured w "GEMINI_API_KEY" key ->
     selects w log0 key version bareModel log ->
     answers w log (generate_request key version bareModel (combinedPrompt p)) res ->
     (sendable (status_or_502 res) = true ->
      POST_gemini req w log0 =
      (Ok (json_response
             (error_body ("Gemini " ++ version ++ "/" ++ bareModel
                          ++ " returned invalid JSON (" ++ dec (status res) ++ "): "
                          ++ slice0 200 raw))
             (status_or_502 res)),
       (log ++ [generate_request key version bareModel (combinedPrompt p)])%list)) /\
     (forall e,
        status_refusal (status_or_502 res) = Some e ->
        POST_gemini req w log0 =
        (Ok (json_response (error_body (exn_message e)) 500),
         (log ++ [generate_request key version bareModel (combinedPrompt p)])%list))) /\
  (forall apiKey version,
     answers w log (listModels_request apiKey version) res ->
     listModels apiKey version w log =
     (Ok {| models := [];
            error := Some ("ListModels invalid JSON (" ++ dec (status res) ++ ") for "
                           ++ version ++ ": " ++ slice0 120 raw) |},
      (log ++ [listModels_request apiKey version])%list)) /\
  (forall prompt provider,
     answers w log (aiReply_request prompt provider) res ->
     aiReply prompt provider w log =
     (Throw (Error (provider_name provider ++ " returned invalid JSON ("
                    ++ dec (status res) ++ "): " ++ slice0 200 raw)),
      (log ++ [aiReply_request prompt provider])%list)) /\
  (forall prompt key,
     configured w "NEXT_PUBLIC_GROQ_API_KEY" key ->
     answers w log (groqReply_request key prompt) res ->
     groqReply prompt w log =
     (Throw (Error ("Groq returned invalid JSON (" ++ dec (status res) ++ "): "
                    ++ slice0 200 raw)),
      (log ++ [groqReply_request key prompt])%list)) /\
  (forall n, n <= String.length raw ->
     String.length (slice0 n raw) = n /\ exists rest, raw = slice0 n raw ++ rest).
Proof.
  intros Hread Hparse. split; [| split; [| split; [| split]]].
  - intros req p key version bareModel log0 Hreq Hp Hkey Hsel Hans.
    rewrite (POST_gemini_selected _ _ _ _ _ _ _ _ Hreq Hp Hkey Hsel).
    pose proof (gemini_generate_invalid_json _ _ _ _ _ _ _ _ Hans Hread Hparse) as Hgen.
    split.
    + intros Hst. now apply (closed_when_sendable _ _ _ _ _ _ _ Hgen).
    + intros e He. now apply (closed_when_refused _ _ _ _ _ _ _ _ Hgen).
  - intros apiKey version Hans. now apply listModels_invalid_json.
  - intros prompt provider Hans.
    rewrite (aiReply_answered _ _ _ _ _ _ Hans Hread). now rewrite Hparse.
  - intros prompt key Hkey Hans.
    rewrite (groqReply_answered _ _ _ _ _ _ Hkey Hans Hread). now rewrite Hparse.
  - intros n Hn. now apply slice0_prefix.
Qed.

End InvalidJSON.

Lemma invalid_json_is_truncated_witness :
  let w := {| env := Served.gemini_env;
              upstream := Served.generation_answers 502 Example.not_json |} in
  POST_gemini Served.asked w [] =
  (Ok (json_response
         (error_body ("Gemini v1/y-pro returned invalid JSON (502): "
                      ++ slice0 200 Example.not_json))
         502),
   [listModels_request "k" "v1"; Served.generation]) /\
  String.length (slice0 200 Example.not_json) = 200.
Proof.
  intros w.
  destruct (invalid_json_is_truncated w [listModels_request "k" "v1"]
              {| status := 502; text := Ok Example.not_json |} Example.not_json)
    as (Hgemini & _ & _ & _ & Hslice).
  - split; [reflexivity | discriminate].
  - reflexivity.
  - split.
    + apply (Hgemini Served.asked "What courses are offered?" "k" "v1" "y-pro" []).
      * exact asked_carries_prompt.
      * discriminate.
      * apply gemini_env_configured.
      * apply selects_y_pro. intros n r Hr. unfold Served.generation_answers.
        now rewrite Hr.
      * reflexivity.
      * reflexivity.
    + apply Hslice. apply Nat.leb_le. reflexivity.
Defined.

(** C3 as stated fails at the model-listing call: of a body of 306
    characters that is not JSON, the answer of the Gemini route carries
    the first 120 characters, not the first 200. *)
Lemma invalid_json_counterexample :
  let req := {| req_body :=
                  Example.stringify (Example.prompt_body (VStr "What courses are offered?")) |} in
  let w := {| env := Example.env_all "k";
              upstream := Example.answering 502 Example.not_json |} in
  fst (listModels "k" "v1" w []) =
    Ok {| models := [];
          error := Some ("ListModels invalid JSON (502) for v1: "
                         ++ slice0 120 Example.not_json) |} /\
  exists msg,
    fst (POST_gemini req w []) = Ok (json_response (error_body msg) 502) /\
    includes (slice0 120 Example.not_json) msg = true /\
    includes (slice0 200 Example.not_json) msg = false.
Proof.
  cbv zeta. split; [reflexivity |].
  eexists. split; [vm_compute; reflexivity |].
  split; vm_compute; reflexivity.
Qed.

(** ** Answers without content *)

Section NoContent.
Context `{HH : Host}.

(** C4, amended: an upstream answer with a 2xx status and a JSON body whose
    extracted answer text is empty is turned into a failure by the
    generation call of the Gemini route (an error envelope, HTTP 500) and
    by the client dispatcher (a thrown error, never a reply); the direct
    Groq client returns the placeholder text ["No response from Groq."]
    instead. *)
Theorem empty_content_is_a_failure (w : world) (log : list request) (res : Response)
    (raw : string) (json : value) :
  reads_as res raw ->
  JSON_parse raw = Some json ->
  ok res = true ->
  (forall apiKey version bareModel prompt,
     answers w log (generate_request apiKey version bareModel prompt) res ->
     gemini_answer json = Ok "" ->
     gemini_generate apiKey version bareModel prompt w log =
     (Ok (json_response
            (error_body ("Gemini " ++ version ++ "/" ++ bareModel
                         ++ " response had no content"))
            500),
      (log ++ [generate_request apiKey version bareModel prompt])%list)) /\
  (forall prompt provider,
     answers w log (aiReply_request prompt provider) res ->
     opt_get json "text" = VStr "" ->
     (exists e,
        aiReply prompt provider w log =
        (Throw e, (log ++ [aiReply_request prompt provider])%list)) /\
     (truthy (opt_get json "error") = false ->
      aiReply prompt provider w log =
      (Throw (Error (provider_name provider ++ " returned empty response")),
       (log ++ [aiReply_request prompt provider])%list))) /\
  (forall prompt key,
     configured w "NEXT_PUBLIC_GROQ_API_KEY" key ->
     answers w log (groqReply_request key prompt) res ->
     groq_content json = VStr "" ->
     groqReply prompt w log =
     (Ok (VStr "No response from Groq."), (log ++ [groqReply_request key prompt])%list)).
Proof.
  intros Hread Hparse Hok. split; [| split].
  - intros apiKey version bareModel prompt Hans Hempty.
    unfold gemini_generate.
    run_call Hans Hread. rewrite Hparse, Hok. cbn [negb].
    unfold bind, lift. now rewrite Hempty.
  - intros prompt provider Hans Hempty.
    rewrite (aiReply_answered _ _ _ _ _ _ Hans Hread), Hparse, Hok. cbn [negb].
    assert (Hobj : exists props, json = VObj props).
    { destruct json; cbn in Hempty; try discriminate. eauto. }
    destruct Hobj as [props ->].
    unfold bind, lift, ret, throw. cbn [get]. rewrite Hempty.
    split.
    + destruct (truthy (opt_get (VObj props) "error")).
      * destruct (to_string _); eauto.
      * cbn. eauto.
    + now intros ->.
  - intros prompt key Hkey Hans Hempty.
    rewrite (groqReply_answered _ _ _ _ _ _ Hkey Hans Hread), Hparse, Hok.
    cbv zeta. now rewrite Hempty.
Qed.

End NoContent.

Lemma empty_content_is_a_failure_witness :
  let raw := Example.stringify (Example.listing []) in
  let w := {| env := Example.env_all "k"; upstream := Example.answering 200 raw |} in
  gemini_generate "k" "v1" "gemini-pro" (combinedPrompt "What courses are offered?") w [] =
  (Ok (json_response (error_body "Gemini v1/gemini-pro response had no content") 500),
   [generate_request "k" "v1" "gemini-pro" (combinedPrompt "What courses are offered?")]).
Proof.
  intros raw w.
  destruct (empty_content_is_a_failure w [] {| status := 200; text := Ok raw |} raw
              (Example.listing []))
    as (Hgemini & _).
  - split; [reflexivity | discriminate].
  - reflexivity.
  - reflexivity.
  - apply Hgemini; reflexivity.
Defined.

(** C4 as stated fails in the direct Groq client: a 200 answer whose
    content is the empty string is returned as a successful result carrying
    placeholder text. *)
Lemma empty_content_counterexample :
  let raw := Example.stringify (Example.content_reply (VStr "")) in
  let w := {| env := Example.env_with "NEXT_PUBLIC_GROQ_API_KEY" "k";
              upstream := Example.answering 200 raw |} in
  groq_content (Example.content_reply (VStr "")) = VStr "" /\
  fst (groqReply "What courses are offered?" w []) = Ok (VStr "No response from Groq.").
Proof. split; reflexivity. Qed.

(** ** Transport failures *)

Section Transport.
Context `{HH : Host}.

(** C5, amended: when the HTTP call fails at transport level, the call is
    issued once and not retried, and only the client dispatcher reports
    ["Failed to connect to <provider>: <cause>"] (the cause being the
    failure's message, or ["Network error"] when it has none).  When the
    generation call of the Gemini route fails so, the route answers HTTP
    500 with the failure's own message as error (or
    ["Gemini route failed"] when it has none); the model-listing call
    records ["ListModels fetch failed for <version>: <cause>"] with an
    empty model set; the direct Groq client lets the failure through. *)
Theorem transport_failure_reports (w : world) (log : list request) (e : exn) :
  (forall prompt provider,
     refuses w log (aiReply_request prompt provider) e ->
     aiReply prompt provider w log =
     (Throw (Error ("Failed to connect to " ++ provider_name provider ++ ": "
                    ++ (if exn_message e =? "" then "Network error" else exn_message e))),
      (log ++ [aiReply_request prompt provider])%list)) /\
  (forall req p key version bareModel log0,
     carries_prompt req p -> p <> "" -> configured w "GEMINI_API_KEY" key ->
     selects w log0 key version bareModel log ->
     refuses w log (generate_request key version bareModel (combinedPrompt p)) e ->
     POST_gemini req w log0 =
     (Ok (json_response
            (error_body (if exn_message e =? "" then "Gemini route failed"
                         else exn_message e))
            500),
      (log ++ [generate_request key version bareModel (combinedPrompt p)])%list)) /\
  (forall apiKey version,
     refuses w log (listModels_request apiKey version) e ->
     listModels apiKey version w log =
     (Ok {| models := [];
            error := Some ("ListModels fetch failed for " ++ version ++ ": "
                           ++ message_or_exn e) |},
      (log ++ [listModels_request apiKey version])%list)) /\
  (forall prompt key,
     configured w "NEXT_PUBLIC_GROQ_API_KEY" key ->
     refuses w log (groqReply_request key prompt) e ->
     groqReply prompt w log = (Throw e, (log ++ [groqReply_request key prompt])%list)).
Proof.
  split; [| split; [| split]].
  - intros prompt provider Href. unfold aiReply.
    apply bind_throw.
    now rewrite (try_catch_throw _ _ _ _ _ _ (fetch_refuses _ _ _ _ Href)).
  - intros req p key version bareModel log0 Hreq Hp Hkey Hsel Href.
    rewrite (POST_gemini_selected _ _ _ _ _ _ _ _ Hreq Hp Hkey Hsel).
    rewrite (try_catch_throw _ _ _ _ _ _ (gemini_generate_refused _ _ _ _ _ _ _ Href)).
    apply route_failed_answers.
  - intros apiKey version Href. now apply listModels_refused.
  - intros prompt key (Henv & Hkey) Href. unfold groqReply.
    unfold bind at 1, process_env. rewrite Henv, (env_present _ Hkey).
    apply bind_throw. now apply fetch_refuses.
Qed.

End Transport.

Lemma transport_failure_reports_witness :
  let w := {| env := Served.gemini_env; upstream := Served.generation_refused |} in
  aiReply "What courses are offered?" groq
    {| env := Example.env_all "k"; upstream := Example.refusing |} [] =
  (Throw (Error "Failed to connect to groq: fetch failed"),
   [aiReply_request "What courses are offered?" groq]) /\
  POST_gemini Served.asked w [] =
  (Ok (json_response (error_body "fetch failed") 500),
   [listModels_request "k" "v1"; Served.generation]).
Proof.
  intros w. split.
  - apply (proj1 (transport_failure_reports
                    {| env := Example.env_all "k"; upstream := Example.refusing |} []
                    (TypeError "fetch failed"))).
    reflexivity.
  - destruct (transport_failure_reports w [listModels_request "k" "v1"]
                (TypeError "fetch failed")) as (_ & Hgemini & _).
    apply (Hgemini Served.asked "What courses are offered?" "k" "v1" "y-pro" []).
    + exact asked_carries_prompt.
    + discriminate.
    + apply gemini_env_configured.
    + apply selects_y_pro. intros n r Hr. unfold Served.generation_refused.
      now rewrite Hr.
    + reflexivity.
Defined.

(** C5 as stated fails away from the dispatcher.  With the generation call
    refused, the Gemini route answers HTTP 500 with the failure's own
    message; with every connection refused, it answers its no-model
    message, which quotes
    ["ListModels fetch failed for v1: fetch failed"], and the direct Groq
    client throws the failure as it is.  None says
    ["Failed to connect to ..."]. *)
Lemma transport_failure_counterexample :
  let refused := {| env := Example.env_all "k"; upstream := Example.refusing |} in
  let w := {| env := Served.gemini_env; upstream := Served.generation_refused |} in
  fst (POST_gemini Served.asked w []) =
    Ok (json_response (error_body "fetch failed") 500) /\
  fst (POST_gemini Served.asked w []) <>
    Ok (json_response (error_body "Failed to connect to gemini: fetch failed") 500) /\
  fst (listModels "k" "v1" refused []) =
    Ok {| models := [];
          error := Some "ListModels fetch failed for v1: fetch failed" |} /\
  (exists msg,
     fst (POST_gemini Served.asked refused []) = Ok (json_response (error_body msg) 502) /\
     includes "ListModels fetch failed for v1: fetch failed" msg = true /\
     includes "Failed to connect to" msg = false) /\
  fst (groqReply "What courses are offered?" refused []) =
    Throw (TypeError "fetch failed") /\
  fst (groqReply "What courses are offered?" refused []) <>
    Throw (Error "Failed to connect to groq: fetch failed").
Proof.
  cbv zeta. split; [vm_compute; reflexivity |].
  split; [vm_compute; discriminate |].
  split; [reflexivity |]. split.
  - eexists. split; [vm_compute; reflexivity |]. split; vm_compute; reflexivity.
  - split; [reflexivity |]. vm_compute. discriminate.
Qed.

(** ** Missing credentials *)

Section Credentials.
Context `{HH : Host}.

(** C6, amended: a request to the Gemini route that carries a non-empty
    string prompt and finds the server credential absent or empty is
    answered HTTP 500 with
    [{error: "GEMINI_API_KEY is not configured on the server"}], without
    any outbound call. *)
Theorem missing_credential_is_500 (req : Request) (w : world) (log : list request)
    (p : string) :
  carries_prompt req p -> p <> "" ->
  env_missing (env w "GEMINI_API_KEY") = true ->
  POST_gemini req w log =
  (Ok (json_response (error_body "GEMINI_API_KEY is not configured on the server") 500),
   log).
Proof.
  intros (body & Hparse & Hprompt) Hp Henv.
  unfold POST_gemini. rewrite Hparse. cbv zeta. rewrite Hprompt, (truthy_prompt _ Hp).
  unfold try_catch, bind, process_env. now rewrite Henv.
Qed.

End Credentials.

Lemma missing_credential_is_500_witness :
  let w := {| env := Example.no_env; upstream := Example.refusing |} in
  POST_gemini Served.asked w [] =
  (Ok (json_response (error_body "GEMINI_API_KEY is not configured on the server") 500),
   []).
Proof.
  intros w.
  apply (missing_credential_is_500 Served.asked w [] "What courses are offered?").
  - exact asked_carries_prompt.
  - discriminate.
  - reflexivity.
Defined.

(** C6 as stated fails on the Gemini route: without its credential it does
    not answer [{error: "GEMINI_API_KEY not configured"}], and a request
    without prompt is answered 400, not 500, credential or not. *)
Lemma missing_credential_counterexample :
  let blank := {| req_body := Example.stringify (Example.prompt_body (VStr "")) |} in
  let w := {| env := Example.no_env; upstream := Example.refusing |} in
  fst (POST_gemini Served.asked w []) <>
    Ok (json_response (error_body "GEMINI_API_KEY not configured") 500) /\
  fst (POST_gemini Served.asked w []) =
    Ok (json_response (error_body "GEMINI_API_KEY is not configured on the server") 500) /\
  fst (POST_gemini blank w []) = Ok (json_response (error_body "Missing prompt") 400).
Proof.
  cbv zeta. split; [| split]; [| reflexivity | reflexivity].
  vm_compute. discriminate.
Qed.

(** ** Upstream errors *)

Section UpstreamErrors.
Context `{HH : Host}.

(** C7, amended: when the upstream status is not 2xx and the body decoded
    as JSON, each call site takes as message the first truthy candidate of
    its own list and reports it in its own form.  The direct Groq client
    checks the nested error-message field, the nested error field, then
    the serialized body, and throws ["Groq error (<status>): <message>"];
    the generation call of the Gemini route checks the nested
    error-message field, the top-level message field, then the whole
    body, and answers
    ["Gemini API Error (<version>/<model> - <status>): <message>"] with the
    upstream status when [NextResponse.json] accepts that status (HTTP 500
    with the constructor's message when it does not); the model-listing
    call checks the nested error-message field, then the serialized body,
    and records ["ListModels API error (<status>) for <version>: <message>"];
    the client dispatcher throws the [error] of the envelope it received,
    or ["<provider> API error (<status>)"]. *)
Theorem upstream_error_messages (w : world) (log : list request) (res : Response)
    (raw : string) (json : value) (msg : string) :
  reads_as res raw ->
  JSON_parse raw = Some json ->
  ok res = false ->
  (forall prompt key,
     configured w "NEXT_PUBLIC_GROQ_API_KEY" key ->
     answers w log (groqReply_request key prompt) res ->
     to_string (first_truthy [opt_get (opt_get json "error") "message"; opt_get json "error"]
                             (VStr (JSON_stringify json))) = Ok msg ->
     groqReply prompt w log =
     (Throw (Error ("Groq error (" ++ dec (status res) ++ "): " ++ msg)),
      (log ++ [groqReply_request key prompt])%list)) /\
  (forall req p key version bareModel log0,
     carries_prompt req p -> p <> "" -> configured w "GEMINI_API_KEY" key ->
     selects w log0 key version bareModel log ->
     answers w log (generate_request key version bareModel (combinedPrompt p)) res ->
     to_string (first_truthy [opt_get (opt_get json "error") "message"; opt_get json "message"]
                             (whole_body json)) = Ok msg ->
     (sendable (status res) = true ->
      POST_gemini req w log0 =
      (Ok (json_response
             (error_body ("Gemini API Error (" ++ version ++ "/" ++ bareModel ++ " - "
                          ++ dec (status res) ++ "): " ++ msg))
             (status res)),
       (log ++ [generate_request key version bareModel (combinedPrompt p)])%list)) /\
     (forall e,
        status_refusal (status res) = Some e ->
        POST_gemini req w log0 =
        (Ok (json_response (error_body (exn_message e)) 500),
         (log ++ [generate_request key version bareModel (combinedPrompt p)])%list))) /\
  (forall apiKey version,
     answers w log (listModels_request apiKey version) res ->
     to_string (first_truthy [opt_get (opt_get json "error") "message"]
                             (VStr (JSON_stringify json))) = Ok msg ->
     listModels apiKey version w log =
     (Ok {| models := [];
            error := Some ("ListModels API error (" ++ dec (status res) ++ ") for "
                           ++ version ++ ": " ++ msg) |},
      (log ++ [listModels_request apiKey version])%list)) /\
  (forall prompt provider,
     answers w log (aiReply_request prompt provider) res ->
     is_nullish json = false ->
     to_string (first_truthy [opt_get json "error"]
                             (VStr (provider_name provider ++ " API error ("
                                    ++ dec (status res) ++ ")"))) = Ok msg ->
     aiReply prompt provider w log =
     (Throw (Error msg), (log ++ [aiReply_request prompt provider])%list)).
Proof.
  intros Hread Hparse Hok. split; [| split; [| split]].
  - intros prompt key Hkey Hans Hmsg.
    rewrite (groqReply_answered _ _ _ _ _ _ Hkey Hans Hread), Hparse, Hok. cbn [negb].
    unfold bind, lift, groqReply_error_detail.
    change (js_or (opt_get (opt_get json "error") "message")
              (js_or (opt_get json "error") (VStr (JSON_stringify json))))
      with (first_truthy [opt_get (opt_get json "error") "message"; opt_get json "error"]
              (VStr (JSON_stringify json))).
    now rewrite Hmsg.
  - intros req p key version bareModel log0 Hreq Hp Hkey Hsel Hans Hmsg.
    rewrite (POST_gemini_selected _ _ _ _ _ _ _ _ Hreq Hp Hkey Hsel).
    pose proof (gemini_generate_upstream_error _ _ _ _ _ _ _ _ _ _
                  Hans Hread Hparse Hok Hmsg) as Hgen.
    split.
    + intros Hst. now apply (closed_when_sendable _ _ _ _ _ _ _ Hgen).
    + intros e He. now apply (closed_when_refused _ _ _ _ _ _ _ _ Hgen).
  - intros apiKey version Hans Hmsg.
    now apply (listModels_api_error _ _ _ _ res raw json msg).
  - intros prompt provider Hans Hjson Hmsg.
    rewrite (aiReply_answered _ _ _ _ _ _ Hans Hread), Hparse, Hok. cbn [negb].
    assert (Hget : get json "error" = Ok (opt_get json "error")).
    { destruct json; try discriminate; reflexivity. }
    unfold bind, ret, lift. rewrite Hget.
    change (js_or (opt_get json "error")
              (VStr (provider_name provider ++ " API error (" ++ dec (status res) ++ ")")))
      with (first_truthy [opt_get json "error"]
              (VStr (provider_name provider ++ " API error (" ++ dec (status res) ++ ")"))).
    now rewrite Hmsg.
Qed.

End UpstreamErrors.

Lemma upstream_error_messages_witness :
  let body := VObj [("error", VStr "bad")] in
  let raw := Example.stringify body in
  let w := {| env := Served.gemini_env; upstream := Served.generation_answers 400 raw |} in
  POST_gemini Served.asked w [] =
  (Ok (json_response (error_body ("Gemini API Error (v1/y-pro - 400): " ++ raw)) 400),
   [listModels_request "k" "v1"; Served.generation]).
Proof.
  intros body raw w.
  destruct (upstream_error_messages w [listModels_request "k" "v1"]
              {| status := 400; text := Ok raw |} raw body raw)
    as (_ & Hgemini & _).
  - split; [reflexivity | discriminate].
  - reflexivity.
  - reflexivity.
  - apply (Hgemini Served.asked "What courses are offered?" "k" "v1" "y-pro" []).
    + exact asked_carries_prompt.
    + discriminate.
    + apply gemini_env_configured.
    + apply selects_y_pro. intros n r Hr. unfold Served.generation_answers.
      now rewrite Hr.
    + reflexivity.
    + reflexivity.
    + reflexivity.
Defined.

(** C7 as stated fails at the generation call of the Gemini route and in
    the direct Groq client: on a 400 answer with body [{error: "bad"}] the
    former does not look at the nested error field and reports the
    serialized body under its own heading, the latter reports
    ["Groq error (400): bad"]. *)
Lemma upstream_error_counterexample :
  let body := VObj [("error", VStr "bad")] in
  let w := {| env := Example.env_all "k";
              upstream := Example.answering 400 (Example.stringify body) |} in
  fst (gemini_generate "k" "v1" "gemini-pro" "What courses are offered?" w []) =
    Ok (json_response
          (error_body ("Gemini API Error (v1/gemini-pro - 400): " ++ Example.stringify body))
          400) /\
  fst (gemini_generate "k" "v1" "gemini-pro" "What courses are offered?" w []) <>
    Ok (json_response (error_body "Gemini API Error (400): bad") 400) /\
  fst (groqReply "What courses are offered?" w []) = Throw (Error "Groq error (400): bad").
Proof.
  cbv zeta. split; [reflexivity | split; [| reflexivity]].
  vm_compute. discriminate.
Qed.

(** * Further properties of the Gemini route and the clients *)

(** ** Inbound validation *)

Section InboundValidation.
Context `{HH : Host}.

(** An inbound body that is not JSON is answered by the Gemini route with
    HTTP 400 and [{ error: "Invalid request body" }]; neither the
    environment nor the upstream is touched. *)
Theorem invalid_request_body_is_400 (req : Request) (w : world) (log : list request) :
  JSON_parse (req_body req) = None ->
  POST_gemini req w log =
    (Ok (json_response (error_body "Invalid request body") 400), log).
Proof.
  intros Hparse. unfold POST_gemini, try_catch.
  now rewrite Hparse.
Qed.

(** A body that decodes to JSON of any shape (an object without [prompt],
    an array, a number, [null], ...) whose [prompt] is not a string, or is
    the empty string, is answered by the Gemini route with HTTP 400 and
    [{ error: "Missing prompt" }], whether or not a credential is
    configured, and without any outbound call. *)
Theorem non_string_prompt_is_400 (req : Request) (w : world) (log : list request)
    (body : value) :
  JSON_parse (req_body req) = Some body ->
  typeof_string (opt_get body "prompt") = false \/ opt_get body "prompt" = VStr "" ->
  POST_gemini req w log = (Ok (json_response (error_body "Missing prompt") 400), log).
Proof.
  intros Hparse Hprompt. unfold POST_gemini, try_catch.
  rewrite Hparse. cbv zeta.
  destruct Hprompt as [Htype| ->].
  - rewrite Htype. now rewrite orb_true_r.
  - reflexivity.
Qed.

End InboundValidation.

Lemma invalid_request_body_is_400_witness :
  let req := {| req_body := "prompt=What courses are offered?" |} in
  let w := {| env := Example.env_all "k"; upstream := Example.refusing |} in
  POST_gemini req w [] =
    (Ok (json_response (error_body "Invalid request body") 400), []).
Proof.
  intros req w. apply (invalid_request_body_is_400 req w []). reflexivity.
Defined.

Lemma non_string_prompt_is_400_witness :
  let absent := {| req_body := Example.stringify (VObj [("error", VStr "bad")]) |} in
  let blank := {| req_body := Example.stringify (Example.prompt_body (VStr "")) |} in
  let w := {| env := Example.env_all "k"; upstream := Example.refusing |} in
  POST_gemini absent w [] = (Ok (json_response (error_body "Missing prompt") 400), []) /\
  POST_gemini blank w [] = (Ok (json_response (error_body "Missing prompt") 400), []).
Proof.
  intros absent blank w. split.
  - apply (non_string_prompt_is_400 absent w [] (VObj [("error", VStr "bad")]));
      [reflexivity | left; reflexivity].
  - apply (non_string_prompt_is_400 blank w [] (Example.prompt_body (VStr "")));
      [reflexivity | right; reflexivity].
Defined.

(** ** Empty upstream bodies *)

Section EmptyBodies.
Context `{HH : Host}.

(** An upstream answer whose body reads as the empty text is reported
    without any attempt to decode it.  At its generation call the Gemini
    route answers an error envelope whose status is the upstream status,
    or 502 when that status is 0, provided [NextResponse.json] accepts it
    (so an empty 200 answer gives an error envelope with status 200); on a
    status it refuses, such as 204, the route answers HTTP 500 with the
    constructor's message.  The model-listing call records the fact with
    an empty model set; the two clients throw. *)
Theorem empty_body_is_reported (w : world) (log : list request) (res : Response) :
  text res = Ok "" ->
  (forall req p key version bareModel log0,
     carries_prompt req p -> p <> "" -> configured w "GEMINI_API_KEY" key ->
     selects w log0 key version bareModel log ->
     answers w log (generate_request key version bareModel (combinedPrompt p)) res ->
     (sendable (status_or_502 res) = true ->
      POST_gemini req w log0 =
      (Ok (json_response
             (error_body ("Gemini " ++ version ++ "/" ++ bareModel
                          ++ " returned empty response (" ++ dec (status res) ++ ")"))
             (status_or_502 res)),
       (log ++ [generate_request key version bareModel (combinedPrompt p)])%list)) /\
     (forall e,
        status_refusal (status_or_502 res) = Some e ->
        POST_gemini req w log0 =
        (Ok (json_response (error_body (exn_message e)) 500),
         (log ++ [generate_request key version bareModel (combinedPrompt p)])%list))) /\
  (forall apiKey version,
     answers w log (listModels_request apiKey version) res ->
     listModels apiKey version w log =
     (Ok {| models := [];
            error := Some ("ListModels empty response (" ++ dec (status res) ++ ") for "
                           ++ version) |},
      (log ++ [listModels_request apiKey version])%list)) /\
  (forall prompt provider,
     answers w log (aiReply_request prompt provider) res ->
     aiReply prompt provider w log =
     (Throw (Error (provider_name provider ++ " returned empty response ("
                    ++ dec (status res) ++ ")")),
      (log ++ [aiReply_request prompt provider])%list)) /\
  (forall prompt key,
     configured w "NEXT_PUBLIC_GROQ_API_KEY" key ->
     answers w log (groqReply_request key prompt) res ->
     groqReply prompt w log =
     (Throw (Error ("Groq returned empty response (" ++ dec (status res) ++ ")")),
      (log ++ [groqReply_request key prompt])%list)) /\
  status_or_502 res <> 0%N /\
  (status res <> 0%N -> status_or_502 res = status res) /\
  (status res = 0%N -> status_or_502 res = 502%N).
Proof.
  intros Htext.
  split; [| split; [| split; [| split; [| split; [| split]]]]].
  - intros req p key version bareModel log0 Hreq Hp Hkey Hsel Hans.
    rewrite (POST_gemini_selected _ _ _ _ _ _ _ _ Hreq Hp Hkey Hsel).
    pose proof (gemini_generate_empty _ _ _ _ _ _ _ Hans Htext) as Hgen.
    split.
    + intros Hst. now apply (closed_when_sendable _ _ _ _ _ _ _ Hgen).
    + intros e He. now apply (closed_when_refused _ _ _ _ _ _ _ _ Hgen).
  - intros apiKey version Hans. unfold listModels.
    apply try_catch_ok.
    unfold bind at 1. rewrite (fetch_answers _ _ _ _ Hans).
    unfold bind, lift. now rewrite Htext.
  - intros prompt provider Hans. unfold aiReply.
    unfold bind at 1.
    rewrite (try_catch_ok _ _ _ _ _ _ (fetch_answers _ _ _ _ Hans)).
    unfold bind, lift. now rewrite Htext.
  - intros prompt key (Henv & Hkey) Hans. unfold groqReply.
    unfold bind at 1, process_env. rewrite Henv, (env_present _ Hkey).
    cbn [env_string].
    unfold bind at 1. rewrite (fetch_answers _ _ _ _ Hans).
    unfold bind, lift. now rewrite Htext.
  - unfold status_or_502. destruct (N.eqb_spec (status res) 0); [discriminate | assumption].
  - intros Hst. unfold status_or_502. now destruct (N.eqb_spec (status res) 0).
  - intros Hst. unfold status_or_502. now rewrite Hst.
Qed.

End EmptyBodies.

Lemma empty_body_is_reported_witness :
  let w := {| env := Served.gemini_env; upstream := Served.generation_answers 204 "" |} in
  POST_gemini Served.asked w [] =
  (Ok (json_response
         (error_body "Response constructor: Invalid response status code 204") 500),
   [listModels_request "k" "v1"; Served.generation]).
Proof.
  intros w.
  destruct (empty_body_is_reported w [listModels_request "k" "v1"]
              {| status := 204; text := Ok "" |} eq_refl) as (Hgemini & _).
  destruct (Hgemini Served.asked "What courses are offered?" "k" "v1" "y-pro" [])
    as [_ Hrefused].
  - exact asked_carries_prompt.
  - discriminate.
  - apply gemini_env_configured.
  - apply selects_y_pro. intros n r Hr. unfold Served.generation_answers.
    now rewrite Hr.
  - reflexivity.
  - apply (Hrefused (TypeError "Response constructor: Invalid response status code 204")).
    reflexivity.
Defined.

(** ** Names: ranking and the bare model name *)

Section Names.
Context `{HN : Numbers}.

Lemma prefix_spec (a s : string) :
  prefix a s = true <-> exists post, s = a ++ post.
Proof.
  revert s. induction a as [|c a IH]; intros s.
  - split; [intros _; now exists s | intros _; now destruct s].
  - destruct s as [|d s]; cbn.
    + split; [discriminate | intros [post Hpost]; discriminate].
    + destruct (Ascii.ascii_dec c d) as [->|Hcd].
      * rewrite IH. split; intros [post Hpost]; exists post; congruence.
      * split; [discriminate | intros [post [= Hc _]]; congruence].
Qed.

Lemma includes_spec (needle s : string) :
  includes needle s = true <-> exists pre post, s = pre ++ needle ++ post.
Proof.
  induction s as [|c s IH]; cbn [includes].
  - rewrite orb_false_r, prefix_spec. split.
    + intros [post Hpost]. now exists "", post.
    + intros (pre & post & Heq). destruct pre; cbn in Heq; [now exists post | discriminate].
  - rewrite orb_true_iff, prefix_spec, IH. split.
    + intros [[post Hpost]|(pre & post & Heq)].
      * now exists "", post.
      * exists (String c pre), post. cbn. now rewrite Heq.
    + intros (pre & post & Heq). destruct pre as [|d pre]; cbn in Heq.
      * left. now exists post.
      * right. exists pre, post. congruence.
Qed.

Lemma lower_ascii_idempotent (c : ascii) : lower_ascii (lower_ascii c) = lower_ascii c.
Proof.
  destruct c as [[] [] [] [] [] [] [] []]; reflexivity.
Qed.

Lemma toLowerCase_idempotent (s : string) : toLowerCase (toLowerCase s) = toLowerCase s.
Proof.
  induction s as [|c s IH]; cbn; [reflexivity |].
  now rewrite lower_ascii_idempotent, IH.
Qed.

(** [byPriority] on a string name: rank 1 exactly when the lower-cased name
    has "flash" as a substring, rank 2 exactly when it has "pro" but not
    "flash", rank 3 otherwise, so that "flash" wins over "pro" in a name
    with both; two names that differ only in the case of their letters
    rank alike; on a name that is not a string the ranking throws. *)
Theorem byPriority_ranks (s : string) :
  let has word := exists pre post, toLowerCase s = pre ++ word ++ post in
  (byPriority (VStr s) = Ok 1%Z <-> has "flash") /\
  (byPriority (VStr s) = Ok 2%Z <-> ~ has "flash" /\ has "pro") /\
  (byPriority (VStr s) = Ok 3%Z <-> ~ has "flash" /\ ~ has "pro") /\
  (forall s', toLowerCase s' = toLowerCase s ->
     byPriority (VStr s') = byPriority (VStr s)) /\
  byPriority (VStr (toLowerCase s)) = byPriority (VStr s) /\
  (forall v, typeof_string v = false -> exists e, byPriority v = Throw e).
Proof.
  cbv zeta. rewrite <- !includes_spec.
  split; [| split; [| split; [| split; [| split]]]].
  - unfold byPriority. cbn [call_toLowerCase].
    destruct (includes "flash" (toLowerCase s)), (includes "pro" (toLowerCase s));
      intuition congruence.
  - unfold byPriority. cbn [call_toLowerCase].
    destruct (includes "flash" (toLowerCase s)), (includes "pro" (toLowerCase s));
      intuition congruence.
  - unfold byPriority. cbn [call_toLowerCase].
    destruct (includes "flash" (toLowerCase s)), (includes "pro" (toLowerCase s));
      intuition congruence.
  - intros s' Hs'. unfold byPriority. cbn [call_toLowerCase]. now rewrite Hs'.
  - unfold byPriority. cbn [call_toLowerCase]. now rewrite toLowerCase_idempotent.
  - intros v Hv. destruct v; try discriminate; cbn; eauto.
Qed.

Lemma substring_all (s : string) : substring 0 (String.length s) s = s.
Proof. induction s as [|c s IH]; cbn; [reflexivity | now rewrite IH]. Qed.

(** The bare model name: a leading ["models/"] is removed, once; a name
    without that prefix is kept as it is; a name that is not a string makes
    the route throw. *)
Theorem bare_model_strips_prefix :
  (forall s, bare_model (VStr ("models/" ++ s)) = Ok s) /\
  (forall s, prefix "models/" s = false -> bare_model (VStr s) = Ok s) /\
  (forall s, bare_model (VStr ("models/models/" ++ s)) = Ok ("models/" ++ s)) /\
  (forall v, typeof_string v = false -> exists e, bare_model v = Throw e).
Proof.
  assert (Hstrip : forall s, bare_model (VStr ("models/" ++ s)) = Ok s).
  { intros s. cbn.
    assert (Hnil : prefix "" s = true) by now destruct s.
    now rewrite Hnil, Nat.sub_0_r, substring_all. }
  repeat split.
  - exact Hstrip.
  - intros s Hs. cbn [bare_model]. now rewrite Hs.
  - intros s. apply (Hstrip ("models/" ++ s)).
  - intros v Hv. destruct v; try discriminate; cbn; eauto.
Qed.

End Names.

(** ** The clients *)

Section Clients.
Context `{HH : Host}.

(** Whatever the HTTP status, also 200, a decoded body with a non-empty
    [error] string makes the dispatcher throw an error with exactly that
    string as message: the error envelope of a route reaches the caller
    word for word. *)
Theorem aiReply_surfaces_route_error (prompt : string) (provider : Provider) (w : world)
    (log : list request) (res : Response) (raw : string) (json : value) (msg : string) :
  answers w log (aiReply_request prompt provider) res ->
  reads_as res raw ->
  JSON_parse raw = Some json ->
  opt_get json "error" = VStr msg ->
  msg <> "" ->
  aiReply prompt provider w log =
  (Throw (Error msg), (log ++ [aiReply_request prompt provider])%list).
Proof.
  intros Hans Hread Hparse Herror Hmsg.
  rewrite (aiReply_answered _ _ _ _ _ _ Hans Hread), Hparse.
  assert (Hobj : exists props, json = VObj props).
  { destruct json; cbn in Herror; try discriminate. eauto. }
  destruct Hobj as [props ->].
  assert (Htruthy : truthy (VStr msg) = true).
  { cbn. now rewrite (eqb_nonempty _ Hmsg). }
  unfold bind, lift, ret, throw. cbn [get]. rewrite Herror.
  destruct (negb (ok res)); rewrite ?Htruthy; unfold js_or; now rewrite Htruthy.
Qed.

(** A reply of the dispatcher is sound: it came from exactly one call,
    answered with a 2xx status and a JSON body without a truthy [error];
    its [text] is the [text] of that body and is truthy, its provider is
    the one asked for. *)
Theorem aiReply_reply_is_sound (prompt : string) (provider : Provider) (w : world)
    (log log' : list request) (r : Reply) :
  aiReply prompt provider w log = (Ok r, log') ->
  exists res raw json,
    answers w log (aiReply_request prompt provider) res /\
    reads_as res raw /\
    JSON_parse raw = Some json /\
    ok res = true /\
    truthy (opt_get json "error") = false /\
    reply_text r = opt_get json "text" /\
    truthy (reply_text r) = true /\
    reply_provider r = provider /\
    log' = (log ++ [aiReply_request prompt provider])%list.
Proof.
  unfold aiReply, bind, try_catch, fetch, lift, ret, throw, answers, reads_as.
  destruct (upstream w (List.length log) (aiReply_request prompt provider)) as [res|e] eqn:Hup;
    [| discriminate].
  destruct (text res) as [raw|e] eqn:Htext; [| discriminate].
  destruct (String.eqb_spec raw "") as [->|Hraw]; [discriminate |].
  destruct (JSON_parse raw) as [json|] eqn:Hparse; [| discriminate].
  destruct (ok res) eqn:Hok; cbn [negb].
  - destruct (get json "error") as [e|e] eqn:Herr; [| discriminate].
    destruct (truthy e) eqn:Hte.
    + destruct (to_string _); discriminate.
    + destruct (get json "text") as [t|e'] eqn:Ht; [| discriminate].
      destruct (truthy t) eqn:Htt; cbn [negb]; [| discriminate].
      intros [= <- <-].
      assert (He : e = opt_get json "error").
      { unfold get in Herr. destruct json; congruence. }
      assert (Ht' : t = opt_get json "text").
      { unfold get in Ht. destruct json; congruence. }
      exists res, raw, json. subst e t. cbn [reply_text reply_provider].
      repeat split; auto.
  - destruct (get json "error") as [e|e]; [| discriminate].
    destruct (to_string _); discriminate.
Qed.

(** Without its key the direct Groq client throws before any call. *)
Theorem groqReply_needs_its_key (prompt : string) (w : world) (log : list request) :
  env_missing (env w "NEXT_PUBLIC_GROQ_API_KEY") = true ->
  groqReply prompt w log = (Throw (Error "Missing NEXT_PUBLIC_GROQ_API_KEY"), log).
Proof.
  intros Henv. unfold groqReply, bind, process_env. now rewrite Henv.
Qed.

(** What the direct Groq client returns is never empty: it is truthy, it is
    the content of the first choice of a 2xx JSON answer when that is
    truthy and the placeholder otherwise, and it cost exactly one call. *)
Theorem groqReply_answer_is_sound (prompt : string) (w : world) (log log' : list request)
    (v : value) :
  groqReply prompt w log = (Ok v, log') ->
  truthy v = true /\
  exists key res raw json,
    configured w "NEXT_PUBLIC_GROQ_API_KEY" key /\
    answers w log (groqReply_request key prompt) res /\
    reads_as res raw /\
    JSON_parse raw = Some json /\
    ok res = true /\
    v = (if truthy (groq_content json) then groq_content json
         else VStr "No response from Groq.") /\
    log' = (log ++ [groqReply_request key prompt])%list.
Proof.
  unfold groqReply, bind, process_env, fetch, lift, ret, throw, answers, reads_as, configured.
  destruct (env w "NEXT_PUBLIC_GROQ_API_KEY") as [key|] eqn:Henv; cbn [env_missing];
    [| discriminate].
  destruct (String.eqb_spec key "") as [->|Hkey]; [discriminate |].
  cbn [env_string].
  destruct (upstream w (List.length log) (groqReply_request key prompt)) as [res|e] eqn:Hup;
    [| discriminate].
  destruct (text res) as [raw|e] eqn:Htext; [| discriminate].
  destruct (String.eqb_spec raw "") as [->|Hraw]; [discriminate |].
  destruct (JSON_parse raw) as [json|] eqn:Hparse; [| discriminate].
  destruct (ok res) eqn:Hok; cbn [negb].
  - intros [= <- <-]. split.
    + unfold js_or. destruct (truthy (groq_content json)) eqn:Ht; [exact Ht | reflexivity].
    + exists key, res, raw, json. repeat split; auto.
  - destruct (to_string _); discriminate.
Qed.

End Clients.

Lemma aiReply_surfaces_route_error_witness :
  let raw := Example.stringify (VObj [("error", VStr "bad")]) in
  let w := {| env := Example.no_env; upstream := Example.answering 200 raw |} in
  aiReply "What courses are offered?" groq w [] =
  (Throw (Error "bad"), [aiReply_request "What courses are offered?" groq]).
Proof.
  intros raw w.
  apply (aiReply_surfaces_route_error "What courses are offered?" groq w []
           {| status := 200; text := Ok raw |} raw (VObj [("error", VStr "bad")]) "bad").
  - reflexivity.
  - split; [reflexivity | discriminate].
  - reflexivity.
  - reflexivity.
  - discriminate.
Defined.

Lemma aiReply_reply_is_sound_witness :
  let raw := Example.stringify (Served.result_envelope "Nilgiri College offers..." "groq") in
  let w := {| env := Example.no_env; upstream := Example.answering 200 raw |} in
  let reply := {| reply_text := VStr "Nilgiri College offers..."; reply_provider := groq |} in
  aiReply (HH := Served.host) "What courses are offered?" groq w [] =
    (Ok reply, [aiReply_request (HH := Served.host) "What courses are offered?" groq]) /\
  truthy (reply_text reply) = true.
Proof.
  intros raw w reply.
  assert (Hrun : aiReply (HH := Served.host) "What courses are offered?" groq w [] =
                 (Ok reply,
                  [aiReply_request (HH := Served.host) "What courses are offered?" groq]))
    by reflexivity.
  split; [exact Hrun |].
  destruct (aiReply_reply_is_sound (HH := Served.host) _ _ _ _ _ _ Hrun)
    as (res & raw' & json & _ & _ & _ & _ & _ & _ & Htruthy & _).
  exact Htruthy.
Defined.

Lemma groqReply_needs_its_key_witness :
  let w := {| env := Example.env_with "GROQ_API_KEY" "k";
              upstream := Example.answering 200 "ignored" |} in
  groqReply "What courses are offered?" w [] =
  (Throw (Error "Missing NEXT_PUBLIC_GROQ_API_KEY"), []).
Proof.
  intros w. apply (groqReply_needs_its_key "What courses are offered?" w []). reflexivity.
Defined.

Lemma groqReply_answer_is_sound_witness :
  let raw := Example.stringify (Example.content_reply (VStr "")) in
  let w := {| env := Example.env_with "NEXT_PUBLIC_GROQ_API_KEY" "k";
              upstream := Example.answering 200 raw |} in
  groqReply "What courses are offered?" w [] =
    (Ok (VStr "No response from Groq."), [groqReply_request "k" "What courses are offered?"]) /\
  truthy (VStr "No response from Groq.") = true.
Proof.
  intros raw w.
  assert (Hrun : groqReply "What courses are offered?" w [] =
                 (Ok (VStr "No response from Groq."),
                  [groqReply_request "k" "What courses are offered?"]))
    by reflexivity.
  split; [exact Hrun |].
  exact (proj1 (groqReply_answer_is_sound _ _ _ _ _ Hrun)).
Defined.

(** ** The calls the Gemini route issues *)

Section RouteCalls.
Context `{HH : Host}.

Lemma NextResponse_json_log (body : value) (st : N) (w : world) (log : list request) :
  snd (NextResponse_json body st w log) = log.
Proof. unfold NextResponse_json. now destruct (status_refusal st). Qed.

Lemma gemini_generate_log (apiKey version bareModel prompt : string) (w : world)
    (log : list request) :
  snd (gemini_generate apiKey version bareModel prompt w log) =
  (log ++ [generate_request apiKey version bareModel prompt])%list.
Proof.
  unfold gemini_generate, bind, fetch, lift.
  destruct (upstream w (List.length log) _) as [res|e]; [| reflexivity].
  destruct (text res) as [raw|e]; [| reflexivity].
  destruct (raw =? ""); [apply NextResponse_json_log |].
  destruct (JSON_parse raw) as [data|]; [| apply NextResponse_json_log].
  destruct (negb (ok res)).
  - destruct (to_string _); [apply NextResponse_json_log | reflexivity].
  - destruct (gemini_answer data) as [answer|e]; [| reflexivity].
    destruct (answer =? ""); apply NextResponse_json_log.
Qed.

Lemma closed_route_log (m : M NextResponse) (fallback : string) (w : world)
    (log : list request) :
  snd (try_catch m (route_failed fallback) w log) = snd (m w log).
Proof. unfold try_catch. destruct (m w log) as [[a|e] log']; reflexivity. Qed.

(** The calls of discovery, selection and generation, in order: whatever
    holds of the four possible sequences holds of the calls issued. *)
Lemma gemini_reply_log_cases (apiKey prompt : string) (w : world) (log : list request)
    (P : list request -> Prop) :
  let L1 := listModels_request apiKey "v1" in
  let L2 := listModels_request apiKey "v1beta" in
  P (log ++ [L1])%list ->
  (forall bareModel,
     P (log ++ [L1; generate_request apiKey "v1" bareModel (combinedPrompt prompt)])%list) ->
  P (log ++ [L1; L2])%list ->
  (forall bareModel,
     P (log ++ [L1; L2;
                generate_request apiKey "v1beta" bareModel (combinedPrompt prompt)])%list) ->
  P (snd (gemini_reply apiKey prompt w log)).
Proof.
  cbv zeta. intros HA HB HC HD. unfold gemini_reply.
  destruct (listModels_total apiKey "v1" w log) as [l1 H1].
  unfold bind at 1. rewrite H1.
  destruct (models l1) as [|m ms] eqn:Hms.
  - cbn [List.length Nat.eqb].
    destruct (listModels_total apiKey "v1beta" w (log ++ [listModels_request apiKey "v1"])%list)
      as [l2 H2].
    unfold bind at 1. rewrite H2.
    rewrite <- app_assoc. cbn [app].
    unfold bind at 1, lift at 1. cbn [pickGenerateContentModel Array_filter Array_sort
      first_or_null js_or truthy].
    unfold bind at 1. cbn [negb lift].
    destruct (pickGenerateContentModel (models l2)) as [c|e]; [| exact HC].
    cbn [andb].
    destruct (truthy c) eqn:Hc; cbn [negb].
    + unfold bind at 1, lift at 1.
      destruct (get c "name") as [name|e]; [| exact HC].
      unfold bind at 1, lift at 1.
      destruct (bare_model name) as [bm|e]; [| exact HC].
      rewrite gemini_generate_log, <- app_assoc. cbn [app]. apply HD.
    + unfold bind, lift, ret.
      destruct (discovery_reasons _ _); exact HC.
  - cbn [List.length Nat.eqb].
    unfold bind at 1, ret at 1.
    unfold bind at 1, lift at 1.
    destruct (pickGenerateContentModel (m :: ms)) as [c|e]; [| exact HA].
    destruct (truthy c) eqn:Hc; cbn [negb].
    + unfold bind at 1, ret at 1. cbn [andb].
      unfold bind at 1, lift at 1.
      destruct (get c "name") as [name|e]; [| exact HA].
      unfold bind at 1, lift at 1.
      destruct (bare_model name) as [bm|e]; [| exact HA].
      rewrite gemini_generate_log, <- app_assoc. cbn [app]. apply HB.
    + unfold bind at 1, lift at 1.
      cbn [pickGenerateContentModel Array_filter Array_sort first_or_null js_or truthy
           negb andb].
      unfold bind, lift, ret.
      destruct (discovery_reasons _ _); exact HA.
Qed.

Lemma POST_gemini_log_cases (req : Request) (w : world) (log : list request)
    (P : list request -> Prop) :
  P log ->
  (forall key p, P (snd (gemini_reply key p w log))) ->
  P (snd (POST_gemini req w log)).
Proof.
  intros Hnone Hreply. unfold POST_gemini. rewrite closed_route_log.
  destruct (JSON_parse (req_body req)) as [body|]; [| exact Hnone].
  cbv zeta.
  destruct (negb (truthy (opt_get body "prompt")) || negb (typeof_string (opt_get body "prompt")));
    [exact Hnone |].
  unfold bind at 1, process_env. cbv beta iota.
  destruct (env_missing (env w "GEMINI_API_KEY")); [exact Hnone |].
  apply Hreply.
Qed.

(** The Gemini route issues at most three calls, always in the same order:
    the [v1] listing, then either nothing more, or a generation call
    against [v1], or the [v1beta] listing, alone or followed by a
    generation call against [v1beta].  It never generates against a version
    it did not list last, and never lists [v1beta] before [v1]. *)
Theorem route_calls_are_bounded (req : Request) (w : world) (log : list request) :
  snd (POST_gemini req w log) = log \/
  exists key p,
    let L1 := listModels_request key "v1" in
    let L2 := listModels_request key "v1beta" in
    let issued := snd (POST_gemini req w log) in
    issued = (log ++ [L1])%list \/
    (exists bareModel,
       issued = (log ++ [L1; generate_request key "v1" bareModel (combinedPrompt p)])%list) \/
    issued = (log ++ [L1; L2])%list \/
    (exists bareModel,
       issued = (log ++ [L1; L2;
                         generate_request key "v1beta" bareModel (combinedPrompt p)])%list).
Proof.
  apply (POST_gemini_log_cases req w log
           (fun issued => issued = log \/
              exists key p,
                issued = (log ++ [listModels_request key "v1"])%list \/
                (exists bareModel,
                   issued = (log ++ [listModels_request key "v1";
                                     generate_request key "v1" bareModel
                                       (combinedPrompt p)])%list) \/
                issued = (log ++ [listModels_request key "v1";
                                  listModels_request key "v1beta"])%list \/
                (exists bareModel,
                   issued = (log ++ [listModels_request key "v1";
                                     listModels_request key "v1beta";
                                     generate_request key "v1beta" bareModel
                                       (combinedPrompt p)])%list))).
  - now left.
  - intros key p. right. exists key, p.
    apply gemini_reply_log_cases; eauto 6.
Qed.

End RouteCalls.

(** ** The dispatcher in front of the Gemini route *)

Section Dispatch.
Context `{HH : Host}.

Lemma closed_route_total (m : M NextResponse) (fallback : string) (w : world)
    (log : list request) :
  exists resp, try_catch m (route_failed fallback) w log = (Ok resp, snd (m w log)).
Proof.
  unfold try_catch.
  destruct (m w log) as [[a|e] log']; [| rewrite route_failed_answers]; cbn; eauto.
Qed.

(** The dispatcher wraps the user's prompt before sending it, so the Gemini
    route, decoding what the dispatcher sent, never sees a missing prompt,
    not even for the empty user prompt: with its key configured it goes on
    to its [v1] listing and answers. *)
Theorem dispatched_prompt_is_never_missing (prompt : string) (provider : Provider)
    (w : world) (log : list request) (key : string) :
  let wrapped := VObj [("prompt", VStr (wrapForNilgiri prompt))] in
  JSON_parse (JSON_stringify wrapped) = Some wrapped ->
  body (aiReply_request prompt provider) = Some (JSON_stringify wrapped) /\
  wrapForNilgiri prompt <> "" /\
  (configured w "GEMINI_API_KEY" key ->
   exists resp issued,
     POST_gemini {| req_body := JSON_stringify wrapped |} w log =
     (Ok resp, (log ++ listModels_request key "v1" :: issued)%list)).
Proof.
  cbv zeta. intros Hparse.
  assert (Hwrapped : wrapForNilgiri prompt <> "") by (unfold wrapForNilgiri; cbn; discriminate).
  assert (Hreq : carries_prompt
                   {| req_body := JSON_stringify (VObj [("prompt", VStr (wrapForNilgiri prompt))]) |}
                   (wrapForNilgiri prompt)).
  { eexists. split; [exact Hparse | reflexivity]. }
  split; [reflexivity |]. split; [exact Hwrapped |].
  intros Hkey. rewrite (POST_gemini_called _ _ _ _ _ Hreq Hwrapped Hkey).
  destruct (closed_route_total (gemini_reply key (wrapForNilgiri prompt))
              "Gemini route failed" w log) as [resp Hresp].
  rewrite Hresp.
  apply (gemini_reply_log_cases key (wrapForNilgiri prompt) w log
           (fun issued => exists resp0 rest,
              (Ok resp, issued) =
              (Ok resp0, (log ++ listModels_request key "v1" :: rest)%list)));
    intros; eexists _, _; reflexivity.
Qed.

End Dispatch.

Lemma dispatched_prompt_is_never_missing_witness :
  let sent := Example.stringify (Example.prompt_body (VStr (wrapForNilgiri ""))) in
  let w := {| env := Served.gemini_env; upstream := Example.refusing |} in
  exists resp issued,
    POST_gemini (HH := Served.host) {| req_body := sent |} w [] =
    (Ok resp, listModels_request (HH := Served.host) "k" "v1" :: issued).
Proof.
  intros sent w.
  destruct (dispatched_prompt_is_never_missing (HH := Served.host) "" gemini w [] "k" eq_refl)
    as (_ & _ & Hgemini).
  apply Hgemini. split; [reflexivity | discriminate].
Defined.

(** ** Results are sent with status 200 *)

Section Results.
Context `{HH : Host}.

Lemma error_body_is_no_result (msg : string) (st : N) (R : NextResponse -> Prop) :
  is_NormalizedResult (resp_body (json_response (error_body msg) st)) = true ->
  R (json_response (error_body msg) st).
Proof. discriminate. Qed.

Lemma gemini_generate_results (apiKey version bareModel prompt : string) :
  version = "v1" \/ version = "v1beta" ->
  satisfies (gemini_generate apiKey version bareModel prompt)
    (fun resp => is_NormalizedResult (resp_body resp) = true -> gemini_result resp)
    (fun _ => true).
Proof.
  intros Hversion. unfold gemini_generate.
  repeat sat_step; try reflexivity; try apply error_body_is_no_result.
  intros _. split; [reflexivity |].
  eexists _, _, _. split; [reflexivity |]. split; [| exact Hversion].
  match goal with
  | H : (?a =? "") = false |- _ => intros ->; discriminate H
  end.
Qed.

Lemma gemini_reply_results (apiKey prompt : string) :
  satisfies (gemini_reply apiKey prompt)
    (fun resp => is_NormalizedResult (resp_body resp) = true -> gemini_result resp)
    (fun _ => true).
Proof.
  unfold gemini_reply.
  apply sat_bind_any; [now apply listModels_sat | intros v1List].
  apply sat_bind_any.
  { destruct (Nat.eqb _ _); [now apply listModels_sat | now apply sat_ret]. }
  intros v1betaList.
  sat_step.
  apply sat_bind_any.
  { destruct (negb (truthy x)); [now apply sat_lift | now apply sat_ret]. }
  intros chosenV1beta.
  repeat sat_step; try apply error_body_is_no_result.
  apply gemini_generate_results.
  destruct (truthy x); [now left | now right].
Qed.

(** An answer of the Gemini route that is a result envelope was sent with
    status 200 and has the full shape of a result: a non-empty [text], the
    tag ["gemini"], the bare model and a version that is ["v1"] or
    ["v1beta"].  The route never sends a result with an error status. *)
Theorem results_are_sent_with_200 (req : Request) (w : world) (log log' : list request)
    (resp : NextResponse) :
  is_NormalizedResult (resp_body resp) = true ->
  POST_gemini req w log = (Ok resp, log') -> gemini_result resp.
Proof.
  intros Hresult Hrun.
  unfold POST_gemini in Hrun.
  match type of Hrun with
  | try_catch ?m _ _ _ = _ =>
      assert (Hsat : satisfies m
                (fun resp => is_NormalizedResult (resp_body resp) = true -> gemini_result resp)
                (fun _ => true))
  end.
  { repeat sat_step; try apply error_body_is_no_result. apply gemini_reply_results. }
  destruct (sat_try (fun _ => true) _ (route_failed "Gemini route failed") _ Hsat
              (fun e => sat_NextResponse_json _ _ _ _ (error_body_is_no_result _ _ _)) w log)
    as [_ Hq].
  rewrite Hrun in Hq. now apply Hq.
Qed.

End Results.

Lemma results_are_sent_with_200_witness :
  let raw := Example.stringify (Example.candidate_reply ["Nilgiri College offers..."]) in
  let w := {| env := Served.gemini_env; upstream := Served.generation_answers 200 raw |} in
  gemini_result
    (json_response
       (VObj [("text", VStr "Nilgiri College offers..."); ("provider", VStr "gemini");
              ("model", VStr "y-pro"); ("version", VStr "v1")]) 200).
Proof.
  intros raw w.
  apply (results_are_sent_with_200 Served.asked w []
           [listModels_request "k" "v1"; Served.generation]
           (json_response
              (VObj [("text", VStr "Nilgiri College offers..."); ("provider", VStr "gemini");
                     ("model", VStr "y-pro"); ("version", VStr "v1")]) 200)
           eq_refl).
  vm_compute. reflexivity.
Defined.

(** ** Discovery, selection and generation together *)

Section DiscoveryPaths.
Context `{HH : Host}.

Lemma gemini_generate_answered (apiKey version bareModel prompt : string) (w : world)
    (log : list request) (res : Response) (raw : string) (data : value) (answer : string) :
  answers w log (generate_request apiKey version bareModel prompt) res ->
  reads_as res raw ->
  JSON_parse raw = Some data ->
  ok res = true ->
  gemini_answer data = Ok answer ->
  answer <> "" ->
  gemini_generate apiKey version bareModel prompt w log =
  (Ok (json_response
         (VObj [("text", VStr answer); ("provider", VStr "gemini");
                ("model", VStr bareModel); ("version", VStr version)])
         200),
   (log ++ [generate_request apiKey version bareModel prompt])%list).
Proof.
  intros Hans Hread Hparse Hok Hanswer Hne. unfold gemini_generate.
  run_call Hans Hread. rewrite Hparse, Hok. cbn [negb].
  unfold bind, lift. now rewrite Hanswer, (eqb_nonempty _ Hne).
Qed.

Lemma string_name_truthy (m : value) (name : string) :
  opt_get m "name" = VStr name -> truthy m = true /\ get m "name" = Ok (VStr name).
Proof.
  intros Hname. destruct m; cbn in Hname; try discriminate.
  split; [reflexivity |]. cbn. now rewrite Hname.
Qed.

(** The generation call goes to the version whose listing produced the
    selected model, under its bare name.  When the [v1] listing yields
    a selection, the route issues two calls, the [v1] listing and
    the generation against [v1]; when the [v1] listing yields no model
    at all and the [v1beta] listing yields a selection, it issues three, the
    generation going against [v1beta].  A 2xx JSON answer with a non-empty
    text is then sent as the result, with the bare model and that
    version. *)
Theorem generation_follows_the_listing (req : Request) (w : world) (log log1 : list request)
    (p key : string) (v1List : Listing) (chosen : value) (name bareModel : string)
    (res : Response) (raw : string) (data : value) (answer : string) :
  carries_prompt req p -> p <> "" ->
  configured w "GEMINI_API_KEY" key ->
  listModels key "v1" w log = (Ok v1List, log1) ->
  opt_get chosen "name" = VStr name ->
  bare_model (VStr name) = Ok bareModel ->
  reads_as res raw ->
  JSON_parse raw = Some data ->
  ok res = true ->
  gemini_answer data = Ok answer ->
  answer <> "" ->
  (pickGenerateContentModel (models v1List) = Ok chosen ->
   answers w log1 (generate_request key "v1" bareModel (combinedPrompt p)) res ->
   POST_gemini req w log =
   (Ok (json_response
          (VObj [("text", VStr answer); ("provider", VStr "gemini");
                 ("model", VStr bareModel); ("version", VStr "v1")])
          200),
    (log ++ [listModels_request key "v1";
             generate_request key "v1" bareModel (combinedPrompt p)])%list)) /\
  (forall v1betaList log2,
     models v1List = [] ->
     listModels key "v1beta" w log1 = (Ok v1betaList, log2) ->
     pickGenerateContentModel (models v1betaList) = Ok chosen ->
     answers w log2 (generate_request key "v1beta" bareModel (combinedPrompt p)) res ->
     POST_gemini req w log =
     (Ok (json_response
            (VObj [("text", VStr answer); ("provider", VStr "gemini");
                   ("model", VStr bareModel); ("version", VStr "v1beta")])
            200),
      (log ++ [listModels_request key "v1"; listModels_request key "v1beta";
               generate_request key "v1beta" bareModel (combinedPrompt p)])%list)).
Proof.
  intros Hreq Hp Hkey Hlist Hname Hbare Hread Hparse Hok Hanswer Hne.
  destruct (string_name_truthy _ _ Hname) as [Htruthy Hget].
  assert (Hlog1 : log1 = (log ++ [listModels_request key "v1"])%list).
  { destruct (listModels_total key "v1" w log) as [l Hl]. congruence. }
  rewrite (POST_gemini_called _ _ _ _ _ Hreq Hp Hkey).
  unfold gemini_reply. rewrite (try_catch_bind_ok _ _ _ _ _ _ _ Hlist).
  split.
  - intros Hpick Hans.
    assert (Hlen : Nat.eqb (List.length (models v1List)) 0 = false).
    { destruct (models v1List); [| reflexivity].
      cbn in Hpick. injection Hpick as <-. discriminate. }
    rewrite Hlen. apply try_catch_ok.
    unfold bind at 1, ret at 1.
    unfold bind at 1, lift at 1. rewrite Hpick.
    unfold bind at 1. rewrite Htruthy. cbn [negb ret andb].
    unfold bind at 1, lift at 1. rewrite Hget.
    unfold bind at 1, lift at 1. rewrite Hbare.
    rewrite (gemini_generate_answered _ _ _ _ _ _ _ _ _ _ Hans Hread Hparse Hok Hanswer Hne).
    subst log1. now rewrite <- app_assoc.
  - intros v1betaList log2 Hempty Hlist2 Hpick Hans.
    assert (Hlog2 : log2 = (log1 ++ [listModels_request key "v1beta"])%list).
    { destruct (listModels_total key "v1beta" w log1) as [l Hl]. congruence. }
    rewrite Hempty. cbn [List.length Nat.eqb].
    rewrite (try_catch_bind_ok _ _ _ _ _ _ _ Hlist2).
    apply try_catch_ok.
    unfold bind at 1, lift at 1.
    cbn [pickGenerateContentModel Array_filter Array_sort first_or_null js_or truthy].
    unfold bind at 1. cbn [negb lift]. rewrite Hpick, Htruthy. cbn [negb andb].
    unfold bind at 1, lift at 1. rewrite Hget.
    unfold bind at 1, lift at 1. rewrite Hbare.
    rewrite (gemini_generate_answered _ _ _ _ _ _ _ _ _ _ Hans Hread Hparse Hok Hanswer Hne).
    subst log2 log1. now rewrite <- !app_assoc.
Qed.

(** When neither listing yields a model, the route answers HTTP 502 with
    the no-model message, whose details are, joined by [" | "]: the [v1]
    error if any, the [v1beta] error if any, ["v1 models (0): none"] and
    ["v1beta models (0): none"].  Both listings were called, nothing
    else. *)
Theorem discovery_exhausted_is_502 (req : Request) (w : world) (log log1 log2 : list request)
    (p key : string) (v1List v1betaList : Listing) :
  carries_prompt req p -> p <> "" ->
  configured w "GEMINI_API_KEY" key ->
  listModels key "v1" w log = (Ok v1List, log1) ->
  listModels key "v1beta" w log1 = (Ok v1betaList, log2) ->
  models v1List = [] ->
  models v1betaList = [] ->
  POST_gemini req w log =
  (Ok (json_response
         (error_body
            (no_model_message
               (join " | "
                  (filter (fun r => negb (r =? ""))
                     [ tagged_error "v1" (error v1List);
                       tagged_error "v1beta" (error v1betaList);
                       "v1 models (0): none";
                       "v1beta models (0): none" ]))))
         502),
   (log ++ [listModels_request key "v1"; listModels_request key "v1beta"])%list).
Proof.
  intros Hreq Hp Hkey Hlist1 Hlist2 Hempty1 Hempty2.
  assert (Hlog1 : log1 = (log ++ [listModels_request key "v1"])%list).
  { destruct (listModels_total key "v1" w log) as [l Hl]. congruence. }
  assert (Hlog2 : log2 = (log1 ++ [listModels_request key "v1beta"])%list).
  { destruct (listModels_total key "v1beta" w log1) as [l Hl]. congruence. }
  rewrite (POST_gemini_called _ _ _ _ _ Hreq Hp Hkey).
  unfold gemini_reply. rewrite (try_catch_bind_ok _ _ _ _ _ _ _ Hlist1).
  rewrite Hempty1. cbn [List.length Nat.eqb].
  rewrite (try_catch_bind_ok _ _ _ _ _ _ _ Hlist2).
  apply try_catch_ok.
  unfold bind, lift, ret, discovery_reasons. rewrite Hempty1, Hempty2.
  subst log2 log1. now rewrite <- !app_assoc.
Qed.

(** [listModels] never throws and issues exactly one call, the listing
    call for its version.  A listing that reports an error carries no
    model and a non-empty message; a listing without error comes from a
    2xx JSON answer and carries the entries of its [models] array (none
    when [models] is no array). *)
Theorem listModels_lists_or_reports (apiKey version : string) (w : world)
    (log : list request) :
  exists l,
    listModels apiKey version w log =
      (Ok l, (log ++ [listModels_request apiKey version])%list) /\
    (forall msg, error l = Some msg -> models l = [] /\ msg <> "") /\
    (error l = None ->
     exists res raw data,
       answers w log (listModels_request apiKey version) res /\
       reads_as res raw /\
       JSON_parse raw = Some data /\
       ok res = true /\
       models l = array_items (opt_get data "models")).
Proof.
  unfold listModels, try_catch, bind, fetch, lift, ret, answers, reads_as.
  destruct (upstream w (List.length log) (listModels_request apiKey version)) as [res|e] eqn:Hup.
  2:{ eexists. split; [reflexivity |]. cbn [error models]. split; [| discriminate].
      intros msg [= <-]. split; [reflexivity | discriminate]. }
  destruct (text res) as [raw|e] eqn:Htext.
  2:{ eexists. split; [reflexivity |]. cbn [error models]. split; [| discriminate].
      intros msg [= <-]. split; [reflexivity | discriminate]. }
  destruct (String.eqb_spec raw "") as [->|Hraw].
  { eexists. split; [reflexivity |]. cbn [error models]. split; [| discriminate].
    intros msg [= <-]. split; [reflexivity | discriminate]. }
  destruct (JSON_parse raw) as [data|] eqn:Hparse.
  2:{ eexists. split; [reflexivity |]. cbn [error models]. split; [| discriminate].
      intros msg [= <-]. split; [reflexivity | discriminate]. }
  destruct (ok res) eqn:Hok; cbn [negb].
  - destruct (get data "models") as [dm|e] eqn:Hget.
    + eexists. split; [reflexivity |]. cbn [error models]. split; [discriminate |].
      intros _. exists res, raw, data. repeat split; auto.
      assert (Hdm : dm = opt_get data "models").
      { unfold get in Hget. destruct data; congruence. }
      rewrite <- Hdm. now destruct dm.
    + eexists. split; [reflexivity |]. cbn [error models]. split; [| discriminate].
      intros msg [= <-]. split; [reflexivity | discriminate].
  - destruct (to_string _) as [msg0|e].
    + eexists. split; [reflexivity |]. cbn [error models]. split; [| discriminate].
      intros msg [= <-]. split; [reflexivity | discriminate].
    + eexists. split; [reflexivity |]. cbn [error models]. split; [| discriminate].
      intros msg [= <-]. split; [reflexivity | discriminate].
Qed.

End DiscoveryPaths.

Lemma generation_follows_the_listing_witness :
  let req := {| req_body :=
                  Example.stringify (Example.prompt_body (VStr "What courses are offered?")) |} in
  let listed := [ ListedModel "models/foo-pro" ["generateContent"];
                  ListedModel "models/bar-flash" ["generateContent"];
                  ListedModel "models/baz" ["generateContent"] ] in
  let reply := Example.candidate_reply ["Nilgiri College offers..."] in
  let w := {| env := Example.env_with "GEMINI_API_KEY" "k";
              upstream := Example.gemini_upstream listed [] reply |} in
  POST_gemini req w [] =
  (Ok (json_response
         (VObj [("text", VStr "Nilgiri College offers..."); ("provider", VStr "gemini");
                ("model", VStr "bar-flash"); ("version", VStr "v1")])
         200),
   [ listModels_request "k" "v1";
     generate_request "k" "v1" "bar-flash" (combinedPrompt "What courses are offered?") ]).
Proof.
  intros req listed reply w.
  destruct (generation_follows_the_listing req w [] [listModels_request "k" "v1"]
              "What courses are offered?" "k" {| models := listed; error := None |}
              (ListedModel "models/bar-flash" ["generateContent"])
              "models/bar-flash" "bar-flash"
              {| status := 200; text := Ok (Example.stringify reply) |}
              (Example.stringify reply) reply "Nilgiri College offers...")
    as [Hv1 _].
  - exists (Example.prompt_body (VStr "What courses are offered?")). split; reflexivity.
  - discriminate.
  - split; [reflexivity | discriminate].
  - reflexivity.
  - reflexivity.
  - reflexivity.
  - split; [reflexivity | discriminate].
  - reflexivity.
  - reflexivity.
  - reflexivity.
  - discriminate.
  - apply Hv1; reflexivity.
Defined.

Lemma discovery_exhausted_is_502_witness :
  let req := {| req_body :=
                  Example.stringify (Example.prompt_body (VStr "What courses are offered?")) |} in
  let w := {| env := Example.env_with "GEMINI_API_KEY" "k"; upstream := Example.refusing |} in
  POST_gemini req w [] =
  (Ok (json_response
         (error_body
            (no_model_message
               ("v1: ListModels fetch failed for v1: fetch failed | "
                ++ "v1beta: ListModels fetch failed for v1beta: fetch failed | "
                ++ "v1 models (0): none | v1beta models (0): none")))
         502),
   [listModels_request "k" "v1"; listModels_request "k" "v1beta"]).
Proof.
  intros req w.
  apply (discovery_exhausted_is_502 req w [] [listModels_request "k" "v1"]
           [listModels_request "k" "v1"; listModels_request "k" "v1beta"]
           "What courses are offered?" "k"
           {| models := []; error := Some "ListModels fetch failed for v1: fetch failed" |}
           {| models := [];
              error := Some "ListModels fetch failed for v1beta: fetch failed" |}).
  - exists (Example.prompt_body (VStr "What courses are offered?")). split; reflexivity.
  - discriminate.
  - split; [reflexivity | discriminate].
  - reflexivity.
  - reflexivity.
  - reflexivity.
  - reflexivity.
Defined.

(** ** Listings that break the declared type *)

Section IllTypedListing.
Context `{HH : Host}.

Lemma Array_filter_null (before after : list value) :
  (forall m, In m before -> is_nullish m = false) ->
  exists e, Array_filter supportsGenerate (before ++ VNull :: after) = Throw e.
Proof.
  induction before as [|m before IH]; intros Hbefore.
  - cbn. eauto.
  - rewrite <- app_comm_cons. cbn -[supportsGenerate].
    rewrite (supportsGenerate_capable m) by (apply Hbefore; now left).
    destruct IH as [e ->]; [intros; apply Hbefore; now right |].
    eauto.
Qed.

(** A [null] entry in a non-empty [v1] listing breaks selection: the route
    answers HTTP 500 with an error envelope, not the 502 no-model answer,
    and stops there; it neither falls back to [v1beta] nor generates, even
    if a capable model is listed beside the [null]. *)
Theorem null_entry_is_500 (req : Request) (w : world) (log log1 : list request)
    (p key : string) (v1List : Listing) (before after : list value) :
  carries_prompt req p -> p <> "" ->
  configured w "GEMINI_API_KEY" key ->
  listModels key "v1" w log = (Ok v1List, log1) ->
  models v1List = (before ++ VNull :: after)%list ->
  (forall m, In m before -> is_nullish m = false) ->
  exists msg,
    POST_gemini req w log =
    (Ok (json_response (error_body msg) 500),
     (log ++ [listModels_request key "v1"])%list).
Proof.
  intros Hreq Hp Hkey Hlist Hmodels Hbefore.
  assert (Hlog1 : log1 = (log ++ [listModels_request key "v1"])%list).
  { destruct (listModels_total key "v1" w log) as [l Hl]. congruence. }
  destruct (Array_filter_null before after Hbefore) as [e He].
  rewrite (POST_gemini_called _ _ _ _ _ Hreq Hp Hkey).
  unfold gemini_reply. rewrite (try_catch_bind_ok _ _ _ _ _ _ _ Hlist).
  assert (Hlen : Nat.eqb (List.length (models v1List)) 0 = false).
  { rewrite Hmodels. now destruct before. }
  rewrite Hlen.
  assert (Hpick : pickGenerateContentModel (models v1List) = Throw e).
  { unfold pickGenerateContentModel. now rewrite Hmodels, He. }
  exists (if exn_message e =? "" then "Gemini route failed" else exn_message e).
  rewrite (try_catch_throw _ _ w log1 e log1).
  - rewrite route_failed_answers. now subst log1.
  - unfold bind, ret, lift. now rewrite Hpick.
Qed.

End IllTypedListing.

Lemma null_entry_is_500_witness :
  let req := {| req_body :=
                  Example.stringify (Example.prompt_body (VStr "What courses are offered?")) |} in
  let listed := [VNull; ListedModel "models/y-pro" ["generateContent"]] in
  let w := {| env := Example.env_with "GEMINI_API_KEY" "k";
              upstream := Example.answering 200 (Example.stringify (Example.listing listed)) |} in
  exists msg,
    POST_gemini (HH := Served.host) req w [] =
    (Ok (json_response (error_body msg) 500),
     [listModels_request (HH := Served.host) "k" "v1"]).
Proof.
  intros req listed w.
  apply (null_entry_is_500 (HH := Served.host) req w []
           [listModels_request (HH := Served.host) "k" "v1"]
           "What courses are offered?" "k" {| models := listed; error := None |}
           [] [ListedModel "models/y-pro" ["generateContent"]]).
  - exists (Example.prompt_body (VStr "What courses are offered?")). split; reflexivity.
  - discriminate.
  - split; [reflexivity | discriminate].
  - reflexivity.
  - reflexivity.
  - intros m [].
Defined.

(** ** Short bodies that are not JSON *)

Section ShortBodies.
Context `{HH : Host}.

Lemma slice0_short (n : nat) (raw : string) :
  String.length raw <= n -> slice0 n raw = raw.
Proof.
  unfold slice0. revert n. induction raw as [|c raw IH]; intros n Hn.
  - now destruct n.
  - destruct n as [|n]; cbn in Hn; [lia |].
    cbn. rewrite IH by lia. reflexivity.
Qed.

Lemma slice0_length (n : nat) (raw : string) :
  String.length (slice0 n raw) = Nat.min n (String.length raw).
Proof.
  unfold slice0. revert n. induction raw as [|c raw IH]; intros n.
  - destruct n; reflexivity.
  - destruct n as [|n]; [reflexivity |]. cbn. now rewrite IH.
Qed.

(** A body that is not JSON and no longer than the bound is reported
    whole: the generation call of the Gemini route (when the upstream
    status can be sent), the client dispatcher and the direct Groq client
    quote all of a body of at most 200 characters, the model-listing call
    all of one of at most 120.  Whatever the body, the quoted part is never
    longer than the bound. *)
Theorem short_invalid_json_is_reported_whole (w : world) (log : list request)
    (res : Response) (raw : string) :
  reads_as res raw ->
  JSON_parse raw = None ->
  (forall req p key version bareModel log0,
     carries_prompt req p -> p <> "" -> configured w "GEMINI_API_KEY" key ->
     selects w log0 key version bareModel log ->
     answers w log (generate_request key version bareModel (combinedPrompt p)) res ->
     sendable (status_or_502 res) = true ->
     String.length raw <= 200 ->
     POST_gemini req w log0 =
     (Ok (json_response
            (error_body ("Gemini " ++ version ++ "/" ++ bareModel
                         ++ " returned invalid JSON (" ++ dec (status res) ++ "): " ++ raw))
            (status_or_502 res)),
      (log ++ [generate_request key version bareModel (combinedPrompt p)])%list)) /\
  (forall apiKey version,
     answers w log (listModels_request apiKey version) res ->
     String.length raw <= 120 ->
     listModels apiKey version w log =
     (Ok {| models := [];
            error := Some ("ListModels invalid JSON (" ++ dec (status res) ++ ") for "
                           ++ version ++ ": " ++ raw) |},
      (log ++ [listModels_request apiKey version])%list)) /\
  (forall prompt provider,
     answers w log (aiReply_request prompt provider) res ->
     String.length raw <= 200 ->
     aiReply prompt provider w log =
     (Throw (Error (provider_name provider ++ " returned invalid JSON ("
                    ++ dec (status res) ++ "): " ++ raw)),
      (log ++ [aiReply_request prompt provider])%list)) /\
  (forall prompt key,
     configured w "NEXT_PUBLIC_GROQ_API_KEY" key ->
     answers w log (groqReply_request key prompt) res ->
     String.length raw <= 200 ->
     groqReply prompt w log =
     (Throw (Error ("Groq returned invalid JSON (" ++ dec (status res) ++ "): " ++ raw)),
      (log ++ [groqReply_request key prompt])%list)) /\
  String.length (slice0 200 raw) <= 200 /\
  String.length (slice0 120 raw) <= 120.
Proof.
  intros Hread Hparse. split; [| split; [| split; [| split; [| split]]]].
  - intros req p key version bareModel log0 Hreq Hp Hkey Hsel Hans Hst Hshort.
    rewrite (POST_gemini_selected _ _ _ _ _ _ _ _ Hreq Hp Hkey Hsel).
    pose proof (gemini_generate_invalid_json _ _ _ _ _ _ _ _ Hans Hread Hparse) as Hgen.
    rewrite (slice0_short _ _ Hshort) in Hgen.
    now apply (closed_when_sendable _ _ _ _ _ _ _ Hgen).
  - intros apiKey version Hans Hshort.
    rewrite (listModels_invalid_json _ _ _ _ _ _ Hans Hread Hparse).
    now rewrite (slice0_short _ _ Hshort).
  - intros prompt provider Hans Hshort.
    rewrite (aiReply_answered _ _ _ _ _ _ Hans Hread).
    now rewrite Hparse, (slice0_short _ _ Hshort).
  - intros prompt key Hkey Hans Hshort.
    rewrite (groqReply_answered _ _ _ _ _ _ Hkey Hans Hread).
    now rewrite Hparse, (slice0_short _ _ Hshort).
  - rewrite slice0_length. apply Nat.le_min_l.
  - rewrite slice0_length. apply Nat.le_min_l.
Qed.

End ShortBodies.

Lemma short_invalid_json_is_reported_whole_witness :
  let w := {| env := Served.gemini_env;
              upstream := Served.generation_answers 503 "Service Unavailable" |} in
  POST_gemini Served.asked w [] =
  (Ok (json_response
         (error_body "Gemini v1/y-pro returned invalid JSON (503): Service Unavailable") 503),
   [listModels_request "k" "v1"; Served.generation]).
Proof.
  intros w.
  destruct (short_invalid_json_is_reported_whole w [listModels_request "k" "v1"]
              {| status := 503; text := Ok "Service Unavailable" |} "Service Unavailable")
    as (Hgemini & _).
  - split; [reflexivity | discriminate].
  - reflexivity.
  - apply (Hgemini Served.asked "What courses are offered?" "k" "v1" "y-pro" []).
    + exact asked_carries_prompt.
    + discriminate.
    + apply gemini_env_configured.
    + apply selects_y_pro. intros n r Hr. unfold Served.generation_answers.
      now rewrite Hr.
    + reflexivity.
    + reflexivity.
    + apply Nat.leb_le. reflexivity.
Defined.
